(** * Local cache of the mobile survey application

    A shallow embedding of [src/services/database/database.ts] (the Local
    Store and the Schema Mapper), of [src/services/describe.ts] (the
    Metadata Cache and the Layout Assembler) and of the Sync Reconciler,
    with the properties their specification states about them.

    JavaScript values are an inductive type, records are property lists in
    [Object.entries] order, objects that are only used as dictionaries are
    finite maps, promises are their final state, and the SQLite engine and
    the remote services are parameters of the sections that use them.  The
    logger prints and returns; it is left out. *)

From Stdlib Require Import Ascii String ZArith.
From stdpp Require Import base strings list gmap pretty.

Open Scope string_scope.

(** ** JavaScript values *)

Module JS.

(** The scalar values a row of the cache holds.  Numbers are the integers
    (the storage type of a numeric column is [integer]) and [NaN]. *)
Inductive value : Type :=
  | Undefined
  | Null
  | Bool (b : bool)
  | Num (n : Z)
  | NaN
  | Str (s : string).

#[global] Instance value_eq_dec : EqDecision value.
Proof. solve_decision. Defined.

(** An object is the list of its own properties, in [Object.entries]
    order; its keys are pairwise distinct ([wf]). *)
Abbreviation object := (list (string * value)).

Definition keys (o : object) : list string := o.*1.

Definition wf (o : object) : Prop := NoDup (keys o).

#[global] Instance wf_dec (o : object) : Decision (wf o).
Proof. unfold wf. apply _. Defined.

(** Anything that can be thrown or passed around: a scalar or an object. *)
Inductive any : Type :=
  | Prim (v : value)
  | Obj (o : object).

#[global] Instance any_eq_dec : EqDecision any.
Proof. solve_decision. Defined.

(** [typeof value] *)
Inductive type_tag : Type :=
  TUndefined | TObject | TBoolean | TNumber | TString.

#[global] Instance type_tag_eq_dec : EqDecision type_tag.
Proof. solve_decision. Defined.

Definition typeof (v : value) : type_tag :=
  match v with
  | Undefined => TUndefined
  | Null => TObject
  | Bool _ => TBoolean
  | Num _ | NaN => TNumber
  | Str _ => TString
  end.

(** [ToBoolean]: what [!value] and [value ? a : b] test. *)
Definition truthy (v : value) : bool :=
  match v with
  | Undefined | Null | NaN => false
  | Bool b => b
  | Num n => negb (n =? 0)%Z
  | Str s => negb (String.eqb s EmptyString)
  end.

(** [a === b] *)
Definition strict_eq (a b : value) : bool :=
  match a, b with
  | NaN, _ | _, NaN => false
  | _, _ => bool_decide (a = b)
  end.

(** [ToString], the conversion of a template literal [`${v}`]. *)
Definition to_string (v : value) : string :=
  match v with
  | Undefined => "undefined"
  | Null => "null"
  | Bool true => "true"
  | Bool false => "false"
  | Num n => pretty n
  | NaN => "NaN"
  | Str s => s
  end.

(** [Array.prototype.join]: [null] and [undefined] elements print as the
    empty string, the others by [ToString]. *)
Fixpoint join (sep : string) (l : list string) : string :=
  match l with
  | [] => EmptyString
  | [x] => x
  | x :: r => x +:+ sep +:+ join sep r
  end.

Definition elem_to_string (v : value) : string :=
  match v with
  | Undefined | Null => EmptyString
  | _ => to_string v
  end.

(** [`${array}`]: [Array.prototype.toString] joins with a comma. *)
Definition array_to_string (l : list value) : string :=
  join "," (elem_to_string <$> l).

(** [s.replace(/'/g, "''")] *)
Fixpoint replace_quotes (s : string) : string :=
  match s with
  | EmptyString => EmptyString
  | String c r =>
      if Ascii.eqb c "'"%char
      then String "'" (String "'" (replace_quotes r))
      else String c (replace_quotes r)
  end.

(** What [replace_quotes] is to compute, character by character: a single
    quote becomes two, any other character is kept. *)
Definition doubleEachQuote (s : string) : string :=
  string_of_list_ascii
    (c ← list_ascii_of_string s;
     if decide (c = "'"%char) then ["'"%char; "'"%char] else [c]).

(** Property lists, for any type of property value.  [lookup_prop] is
    [o[k]] on an own property, [set_prop] is [{...o, [k]: v}] (an existing
    key keeps its place, a new one goes last), [delete_prop] is
    [delete o[k]]. *)
Section Props.
Context {V : Type}.

Fixpoint lookup_prop (o : list (string * V)) (k : string) : option V :=
  match o with
  | [] => None
  | (k', v) :: r => if decide (k' = k) then Some v else lookup_prop r k
  end.

Fixpoint set_prop (o : list (string * V)) (k : string) (v : V)
  : list (string * V) :=
  match o with
  | [] => [(k, v)]
  | (k', v') :: r =>
      if decide (k' = k) then (k, v) :: r else (k', v') :: set_prop r k v
  end.

Definition delete_prop (o : list (string * V)) (k : string)
  : list (string * V) :=
  filter (fun kv => kv.1 <> k) o.
End Props.

(** [o.k]: a missing property reads as [undefined]. *)
Definition get (o : object) (k : string) : value :=
  default Undefined (lookup_prop o k).

(** [e.k] for a property name [k] that no scalar has: a scalar other than
    [null] and [undefined] answers [undefined], and reading a property of
    [null] or [undefined] throws a [TypeError] ([None]). *)
Definition get_any (e : any) (k : string) : option value :=
  match e with
  | Prim Undefined | Prim Null => None
  | Prim _ => Some Undefined
  | Obj o => Some (get o k)
  end.

Definition nullish (e : any) : bool :=
  match e with
  | Prim Undefined | Prim Null => true
  | _ => false
  end.

(** [new Error(message)] and the [TypeError] of the runtime. *)
Definition Error (message : string) : any :=
  Obj [("name", Str "Error"); ("message", Str message)].

Definition TypeError (message : string) : any :=
  Obj [("name", Str "TypeError"); ("message", Str message)].

End JS.

(** ** Promises and asynchronous functions *)

Module Promise.

(** The final state of a promise.  [Pending] is a promise that is never
    settled. *)
Inductive state (A : Type) : Type :=
  | Resolved (a : A)
  | Rejected (e : JS.any)
  | Pending.
Arguments Resolved {A} a.
Arguments Rejected {A} e.
Arguments Pending {A}.

(** [resolve(..)] and [reject(..)] settle a pending promise and do nothing
    to a settled one. *)
Definition settle {A} (p new : state A) : state A :=
  match p with
  | Pending => new
  | _ => p
  end.

(** An asynchronous computation over a world [W] (the database file, the
    remote system): the promise it returns and the world it leaves. *)
Definition task (W A : Type) : Type := W -> state A * W.

Definition ret {W A} (a : A) : task W A := fun w => (Resolved a, w).

Definition throw {W A} (e : JS.any) : task W A := fun w => (Rejected e, w).

(** [const x = await t; k x] inside an [async] function: a rejection is
    thrown from the [await], and a promise that never settles suspends the
    function for ever. *)
Definition await {W A B} (t : task W A) (k : A -> task W B) : task W B :=
  fun w =>
    match t w with
    | (Resolved a, w') => k a w'
    | (Rejected e, w') => (Rejected e, w')
    | (Pending, w') => (Pending, w')
    end.

(** [try { body } catch (e) { handler e }] *)
Definition try_catch {W A} (body : task W A) (handler : JS.any -> task W A)
  : task W A :=
  fun w =>
    match body w with
    | (Rejected e, w') => handler e w'
    | r => r
    end.

(** [for (const x of l) { await body x }] *)
Fixpoint for_of {W A S} (l : list A) (body : A -> S -> task W S) (s : S)
  : task W S :=
  match l with
  | [] => ret s
  | x :: r => await (body x s) (for_of r body)
  end.

End Promise.

Notation "x <- t ;; k" := (Promise.await t (fun x => k))
  (at level 100, t at next level, right associativity).
Notation "t ;;; k" := (Promise.await t (fun _ => k))
  (at level 100, right associativity).

(** ** The Local Store: [services/database/database.ts] *)

Module Database.
Import JS Promise.

(** What a statement gives back: [rows._array], and the two counters of
    the result set. *)
Record SQLResultSet : Type := {
  rows_array : list object;
  rowsAffected : Z;
  insertId : option Z;
}.

(** The three ways [database.transaction] answers a statement: the success
    callback, the error callback, or an exception thrown by the call. *)
Inductive reply : Type :=
  | Success (result : SQLResultSet)
  | StatementError (error : any)
  | Thrown (error : any).

Record SQLiteFieldTypeMapping : Type := {
  name : string;
  type : string;
}.

(** The character U+0022, which the rejection messages contain. *)
Definition dquote : string :=
  String (Ascii false true false false false true false false) EmptyString.

(** The value [getRecords] rejects with when it is given no filter: the
    [InvalidArgument] condition of the Local Store. *)
Definition InvalidArgument : any :=
  Prim (Str ("Specify where clause or use " +:+ dquote +:+ "getAllRecords"
             +:+ dquote +:+ " instead.")).

(** The schema mapper: [getFieldTypeMappings]. *)
Definition getFieldTypeMappings (record : object)
  : list SQLiteFieldTypeMapping :=
  (fun '(name, value) =>
     if decide (typeof value = TNumber \/ typeof value = TBoolean)
     then {| name := name; type := "integer" |}
     else {| name := name; type := "text" |}) <$> record.

(** The body of the reducer of [convertObjectToSQLite]: the SQLite value of
    one property value.  The tests are those of the source, in its order. *)
Definition sqliteValue (value : value) : JS.value :=
  if negb (truthy value) then Str "''"
  else if decide (typeof value = TString) then
    if truthy value
    then Str ("'" +:+ replace_quotes (to_string value) +:+ "'")
    else Str EmptyString
  else if decide (typeof value = TBoolean) then
    if truthy value then Num 1 else Num 0
  else value.

Definition convertObjectToSQLite (record : object) : object :=
  foldl (fun result '(key, value) => set_prop result key (sqliteValue value))
        [] record.

(** [Object.entries(record).forEach(([key, value]) => { if (value === null)
    delete record[key] })]: the entries are listed once, then the object is
    changed. *)
Definition deleteNulls (record : object) : object :=
  foldl (fun current '(key, value) =>
           if strict_eq value Null then delete_prop current key else current)
        record record.

(** The columns [updateRecord] assigns and their SQLite values: the
    entries of the converted object, once the [null]s are deleted. *)
Definition assignments (record : object) : object :=
  convertObjectToSQLite (deleteNulls record).

(** The [set] list of [updateRecord], before it is joined. *)
Definition keyValues (record : object) : list string :=
  (fun '(key, value) => key +:+ " = " +:+ to_string value)
    <$> convertObjectToSQLite record.

Definition updateStatement (tableName : string) (record : object)
    (whereClause : string) : string :=
  "update " +:+ tableName +:+ " set " +:+ join "," (keyValues record)
  +:+ " " +:+ whereClause.

(** The text of [prepareTable]. *)
Definition fieldsInStatement (fieldTypeMappings : list SQLiteFieldTypeMapping)
    (primaryKey : value) : string :=
  let fieldsWithType :=
    join "," ((fun field =>
                 if strict_eq (Str (name field)) primaryKey
                 then name field +:+ " " +:+ type field +:+ " primary key"
                 else name field +:+ " " +:+ type field)
              <$> fieldTypeMappings) in
  let _localId := "_localId integer primary key autoincrement" in
  if negb (truthy primaryKey)
  then _localId +:+ "," +:+ fieldsWithType
  else fieldsWithType.

Definition createStatement (tableName : string)
    (fieldTypeMappings : list SQLiteFieldTypeMapping) (primaryKey : value)
  : string :=
  "create table if not exists " +:+ tableName +:+ " ("
  +:+ fieldsInStatement fieldTypeMappings primaryKey +:+ ");".

(** The text of [saveRecords]. *)
Definition insertStatement (tableName : string) (records : list object)
  : string :=
  let fieldTypeMappings := getFieldTypeMappings (default [] (head records)) in
  let keys := join "," (name <$> fieldTypeMappings) in
  let values :=
    join "," ((fun record =>
                 "(" +:+ array_to_string (convertObjectToSQLite record).*2
                 +:+ ")") <$> records) in
  "insert into " +:+ tableName +:+ " (" +:+ keys +:+ ") values " +:+ values.

(** What [saveRecords] resolves to: the empty array, or a result set. *)
Inductive saved : Type :=
  | NoRecords (empty : list object)
  | Inserted (result : SQLResultSet).

(** The objects the callers hold, by reference. *)
Definition ref : Type := positive.

Section Store.
Context {World : Type}.

(** The SQLite engine: [database.transaction] with one [executeSql]. *)
Variable sqlite : string -> World -> reply * World.

Definition executeTransaction (statement : string)
  : task World SQLResultSet :=
  fun w =>
    match sqlite statement w with
    | (Success result, w') => (Resolved result, w')
    | (StatementError error, w') => (Rejected error, w')
    | (Thrown error, w') => (Rejected error, w')
    end.

(** The end of every operation:
    [executeTransaction(statement).then(r => resolve(f r)).catch(reject)]
    on a promise whose state is [p]. *)
Definition resolveWith {A B} (p : state B) (f : A -> B) (t : task World A)
  : task World B :=
  fun w =>
    match t w with
    | (Resolved result, w') => (settle p (Resolved (f result)), w')
    | (Rejected error, w') => (settle p (Rejected error), w')
    | (Pending, w') => (p, w')
    end.

Definition getAllRecords (tableName : string) : task World (list object) :=
  let statement := "select * from " +:+ tableName in
  resolveWith Pending rows_array (executeTransaction statement).

(** [reject] does not end the executor: the statement is built and run
    whatever [whereClause] is. *)
Definition getRecords (tableName : string) (whereClause : value)
  : task World (list object) :=
  let p :=
    if negb (truthy whereClause)
    then settle Pending (Rejected InvalidArgument)
    else Pending in
  let statement :=
    "select * from " +:+ tableName +:+ " " +:+ to_string whereClause in
  resolveWith p rows_array (executeTransaction statement).

Definition prepareTable (tableName : string)
    (fieldTypeMappings : list SQLiteFieldTypeMapping) (primaryKey : value)
  : task World SQLResultSet :=
  resolveWith Pending id
    (executeTransaction
       (createStatement tableName fieldTypeMappings primaryKey)).

(** The executor is an [async] function: when the awaited [prepareTable]
    rejects, the executor stops and its promise is never settled. *)
Definition saveRecords (tableName : string) (records : list object)
    (primaryKey : value) : task World saved :=
  fun w =>
    if decide (length records = 0) then (Resolved (NoRecords []), w)
    else
      let fieldTypeMappings :=
        getFieldTypeMappings (default [] (head records)) in
      match prepareTable tableName fieldTypeMappings primaryKey w with
      | (Resolved _, w1) =>
          resolveWith Pending Inserted
            (executeTransaction (insertStatement tableName records)) w1
      | (_, w1) => (Pending, w1)
      end.

(** [record] is the caller's object: the deletions are made in the heap
    [h], and the heap is returned with the promise.  A reference that
    names no object stands for a [null] or [undefined] argument, on which
    [Object.entries] throws inside the executor. *)
Definition updateRecord (tableName : string) (record : ref)
    (whereClause : string) (h : gmap ref object)
  : World -> state SQLResultSet * gmap ref object * World :=
  fun w =>
    match h !! record with
    | None =>
        (Rejected (TypeError "Cannot convert undefined or null to object"),
         h, w)
    | Some o =>
        let h' := <[record := deleteNulls o]> h in
        let statement :=
          updateStatement tableName (default [] (h' !! record))
                          whereClause in
        let '(p, w') :=
          resolveWith Pending id (executeTransaction statement) w in
        (p, h', w')
    end.

Definition deleteRecord (tableName : string) (_localId : value)
  : task World SQLResultSet :=
  let statement :=
    "delete from " +:+ tableName +:+ " where _localId = "
    +:+ to_string _localId in
  resolveWith Pending id (executeTransaction statement).

Definition clearTable (tableName : string) : task World SQLResultSet :=
  let statement := "DROP TABLE IF EXISTS " +:+ tableName +:+ ";" in
  resolveWith Pending id (executeTransaction statement).
End Store.

End Database.

(** ** The Metadata Cache and the Layout Assembler: [services/describe.ts] *)

Module Describe.
Import JS Promise.

Record SurveyField : Type := {
  name : value;
  label : value;
  type : value;
  required : bool;
}.

Record SurveySection : Type := {
  id : value;
  title : value;
  data : list SurveyField;
}.

Record SurveyLayout : Type := {
  sections : list SurveySection;
}.

(** What [storePageLayoutItems] resolves to: two [Map]s, in insertion
    order. *)
Record PageLayoutResult : Type := {
  picklistValuesMap : list (string * list object);
  fieldTypesMap : list (string * object);
}.

(** [other.forEach((v, k) => map.set(k, v))] *)
Definition setAll {V} (map other : list (string * V)) : list (string * V) :=
  foldl (fun m '(k, v) => set_prop m k v) map other.

(** The three messages of a failed refresh. *)
Definition invalidRecordTypeMessage : string :=
  "Invalid record type on Survey object. Contact your administrator.".

Definition noEditableFieldsMessage : string :=
  "No editable fields on Survey layout. Contact your administrator.".

Definition unexpectedErrorMessage : string :=
  "Unexpected error occured while retrieving survey settings. Contact your administrator.".

(** The [catch] block of [retrieveAllMetadata]: what it throws for the
    caught value [e]. *)
Definition translate (e : any) : any :=
  match get_any e "error" with
  | None => TypeError "Cannot read property 'error'"
  | Some code =>
      if strict_eq code (Str "invalid_record_type")
      then Error invalidRecordTypeMessage
      else if strict_eq code (Str "no_editable_fields")
      then Error noEditableFieldsMessage
      else Error unexpectedErrorMessage
  end.

(** The properties every object inherits from [Object.prototype]: an
    object made by [{}] or by [{...result}] answers them without having
    them. *)
Definition objectPrototype : list string :=
  ["constructor"; "hasOwnProperty"; "isPrototypeOf"; "propertyIsEnumerable";
   "toLocaleString"; "toString"; "valueOf"; "__proto__";
   "__defineGetter__"; "__defineSetter__"; "__lookupGetter__";
   "__lookupSetter__"].

Definition inherited (key : string) : bool :=
  bool_decide (key ∈ objectPrototype).

(** [result[key]] on such an object used as a dictionary: the own
    property, or else the inherited one (a function, or the prototype
    itself: truthy, and neither iterable nor an array), or else
    [undefined]. *)
Inductive read (V : Type) : Type :=
  | Own (v : V)
  | Inherited
  | Missing.
Arguments Own {V} v.
Arguments Inherited {V}.
Arguments Missing {V}.

Definition readProp {V} (result : gmap string V) (key : string) : read V :=
  match result !! key with
  | Some v => Own v
  | None => if inherited key then Inherited else Missing
  end.

(** [items.reduce((result, item) => ({...result, [item.sectionId]:
    [...(result[item.sectionId] || []), item]}), {})]: the object is a
    dictionary from the section id, as a property key, to the items met so
    far.  When what is read under the key is an inherited property, the
    spread of it throws a [TypeError], which ends the [reduce]
    ([None]). *)
Definition groupBySectionId (items : list object)
  : option (gmap string (list object)) :=
  foldl (fun (reduced : option (gmap string (list object))) item =>
           result ← reduced;
           let key := to_string (get item "sectionId") in
           match readProp result key with
           | Own sectionItems =>
               Some (<[key := (sectionItems ++ [item])%list]> result)
           | Missing => Some (<[key := [item]]> result)
           | Inherited => None
           end)
        (Some ∅) items.

(** The items of one section: the rows whose [sectionId] is, as a property
    key, the given key, in the order of the rows. *)
Definition itemsOf (key : string) (items : list object) : list object :=
  filter (fun item => to_string (get item "sectionId") = key) items.

Definition fieldOfItem (item : object) : SurveyField :=
  {| name := get item "fieldName";
     label := get item "fieldLabel";
     type := get item "fieldType";
     required := negb (negb (truthy (get item "required"))) |}.

(** One entry of [sections.map(s => ({id: s.id, title: s.sectionLabel,
    data: sectionIdToItems[s.id] ? sectionIdToItems[s.id].map(...) : []}))].
    An inherited property is truthy and has no [map]: calling it throws a
    [TypeError] ([None]). *)
Definition sectionOf (sectionIdToItems : gmap string (list object))
    (s : object) : option SurveySection :=
  match readProp sectionIdToItems (to_string (get s "id")) with
  | Own sectionItems =>
      Some {| id := get s "id"; title := get s "sectionLabel";
              data := fieldOfItem <$> sectionItems |}
  | Missing =>
      Some {| id := get s "id"; title := get s "sectionLabel"; data := [] |}
  | Inherited => None
  end.

(** The layout object built from the two lists of rows, or the
    [TypeError] thrown on the way. *)
Definition assemble (sections items : list object) : any + SurveyLayout :=
  match groupBySectionId items with
  | None => inl (TypeError "result[item.sectionId] is not iterable")
  | Some sectionIdToItems =>
      match mapM (sectionOf sectionIdToItems) sections with
      | None => inl (TypeError "sectionIdToItems[s.id].map is not a function")
      | Some entries => inr {| sections := entries |}
      end
  end.

Section Metadata.
Context {World RecordType DescribeLayout : Type}.

Variable sqlite : string -> World -> Database.reply * World.

(** The names of [constants]. *)
Variables RECORD_TYPE PAGE_LAYOUT_SECTION PAGE_LAYOUT_ITEM PICKLIST_VALUE
          LOCALIZATION SURVEY_OBJECT FIELD_TYPE : string.

(** The remote metadata client and the writers of
    [services/salesforce], and the settings store. *)
Variable recordTypeId : RecordType -> value.
Variable layoutId : DescribeLayout -> string.
Variable storeRecordTypesWithCompactLayout : task World (list RecordType).
Variable describeLayouts :
  string -> list value -> task World (list DescribeLayout).
Variable storePageLayoutSections : DescribeLayout -> task World unit.
Variable storePageLayoutItems : DescribeLayout -> task World PageLayoutResult.
Variable storeLocalization : task World unit.
Variable storageSave : string -> object -> World -> World.

Abbreviation clearTable := (Database.clearTable sqlite).
Abbreviation saveRecords := (Database.saveRecords sqlite).
Abbreviation getRecords := (Database.getRecords sqlite).

(** The [try] block of [retrieveAllMetadata]. *)
Definition refresh : task World unit :=
  clearTable RECORD_TYPE ;;;
  recordTypes <- storeRecordTypesWithCompactLayout ;;
  clearTable PAGE_LAYOUT_SECTION ;;;
  clearTable PAGE_LAYOUT_ITEM ;;;
  compositeResponse <-
    describeLayouts SURVEY_OBJECT (recordTypeId <$> recordTypes) ;;
  let layouts :=
    (foldl (fun m body => set_prop m (layoutId body) body)
           [] compositeResponse).*2 in
  maps <-
    for_of layouts
      (fun layout '(picklistOptionsMap, fieldTypesMap0) =>
         storePageLayoutSections layout ;;;
         pageLayoutResult <- storePageLayoutItems layout ;;
         ret (setAll picklistOptionsMap (picklistValuesMap pageLayoutResult),
              setAll fieldTypesMap0 (fieldTypesMap pageLayoutResult)))
      ([], []) ;;
  clearTable PICKLIST_VALUE ;;;
  let picklistValues := concat (maps.1).*2 in
  saveRecords PICKLIST_VALUE picklistValues Undefined ;;;
  let fieldType :=
    foldl (fun result current =>
             set_prop result (to_string (get current "name"))
                      (get current "type"))
          [] (maps.2).*2 in
  (fun w => ret tt (storageSave FIELD_TYPE fieldType w)) ;;;
  clearTable LOCALIZATION ;;;
  storeLocalization.

Definition retrieveAllMetadata : task World unit :=
  try_catch refresh (fun e => throw (translate e)).

Definition buildLayoutDetail (layoutId : string) : task World SurveyLayout :=
  sections <-
    getRecords PAGE_LAYOUT_SECTION
               (Str ("where layoutId='" +:+ layoutId +:+ "'")) ;;
  let sectionIds := (fun s => get s "id") <$> sections in
  items <-
    getRecords PAGE_LAYOUT_ITEM
               (Str ("where sectionId in ("
                     +:+ join "," ((fun id => "'" +:+ to_string id +:+ "'")
                                   <$> sectionIds)
                     +:+ ")")) ;;
  match assemble sections items with
  | inr layout => ret layout
  | inl e => throw e
  end.
End Metadata.

End Describe.

(** ** The Sync Reconciler: [services/sync] *)

Module Sync.

Inductive SyncStatus : Type :=
  | SYNCED
  | UNSYNCED
  | RemoteStatus (s : string).

#[global] Instance SyncStatus_eq_dec : EqDecision SyncStatus.
Proof. solve_decision. Defined.

(** Modelled from the spec: the survey row of the local store (the type
    [SQLiteSurvey] of [types/sqlite] is not among the sources): its
    synthetic identifier, its sync status, the identifier the remote system
    gave it, and its field values. *)
Record Survey : Type := {
  _localId : Z;
  _syncStatus : SyncStatus;
  Id : option string;
  fields : JS.object;
}.

#[global] Instance Survey_eq_dec : EqDecision Survey.
Proof. solve_decision. Defined.

(** Modelled from the spec: the answer of the remote record client,
    [createOrUpdate(record)], which is [{id, status}] or a remote error. *)
Inductive pushed : Type :=
  | Accepted (id : string) (status : string)
  | RemoteError (e : JS.any).

Definition accepted (p : pushed) : bool :=
  match p with
  | Accepted _ _ => true
  | RemoteError _ => false
  end.

(** Modelled from the spec: the aggregate outcome of a sync. *)
Record Report : Type := {
  succeeded : nat;
  failed : nat;
}.

(** Modelled from the spec: marking the local row of a pushed record
    [SYNCED] and writing the remote identifier back into it. *)
Definition markSynced (localId : Z) (id : string) (store : list Survey)
  : list Survey :=
  (fun row =>
     if decide (_localId row = localId)
     then {| _localId := _localId row; _syncStatus := SYNCED;
             Id := Some id; fields := fields row |}
     else row) <$> store.

Section Reconciler.
Context {Remote : Type}.

(** The remote record client. *)
Variable createOrUpdate : Survey -> Remote -> pushed * Remote.

(** Modelled from the spec: [syncLocalSurveys] of [services/sync], which is
    not among the sources (only its caller, the sync button, is).  For each
    record in order it calls the remote client; on success it marks the
    local row [SYNCED], on failure it leaves the row as it is and goes on
    with the remainder; it reports the counts of both and deletes no
    row. *)
Fixpoint syncLocalSurveys (records : list Survey) (store : list Survey)
    (remote : Remote) : Report * list Survey * Remote :=
  match records with
  | [] => ({| succeeded := 0; failed := 0 |}, store, remote)
  | record :: rest =>
      match createOrUpdate record remote with
      | (Accepted id _, remote') =>
          let '(report, store', remote'') :=
            syncLocalSurveys rest (markSynced (_localId record) id store)
                             remote' in
          ({| succeeded := S (succeeded report); failed := failed report |},
           store', remote'')
      | (RemoteError _, remote') =>
          let '(report, store', remote'') :=
            syncLocalSurveys rest store remote' in
          ({| succeeded := succeeded report; failed := S (failed report) |},
           store', remote'')
      end
  end.

(** The answers the remote client gives when the records are pushed in
    order, one call each. *)
Fixpoint answers (records : list Survey) (remote : Remote) : list pushed :=
  match records with
  | [] => []
  | record :: rest =>
      let '(answer, remote') := createOrUpdate record remote in
      answer :: answers rest remote'
  end.
End Reconciler.

End Sync.

(** ** Test doubles *)

Module Mock.
Import JS Database.

(** Closed decidable facts: distinct keys, membership, lookups. *)
Ltac evaluated := refine (bool_decide_unpack _ _); vm_compute; exact I.

(** A scripted SQLite engine: it answers the statements with the replies
    it was given, in order, and keeps the statements it received. *)
Record world : Type := {
  script : list reply;
  log : list string;
}.

Definition noRows : SQLResultSet :=
  {| rows_array := []; rowsAffected := 0; insertId := None |}.

Definition rows (l : list object) : SQLResultSet :=
  {| rows_array := l; rowsAffected := 0; insertId := None |}.

Definition sqlite (statement : string) (w : world) : reply * world :=
  match script w with
  | [] => (Success noRows, {| script := []; log := log w ++ [statement] |})
  | r :: rest => (r, {| script := rest; log := log w ++ [statement] |})
  end.

Definition fresh (replies : list reply) : world :=
  {| script := replies; log := [] |}.

(** A remote record client that rejects the records whose identifier is in
    its state. *)
Definition createOrUpdate (record : Sync.Survey) (rejecting : list Z)
  : Sync.pushed * list Z :=
  if decide (Sync._localId record ∈ rejecting)
  then (Sync.RemoteError (Obj [("error", Str "remote_failure")]), rejecting)
  else (Sync.Accepted ("a0" +:+ pretty (Sync._localId record)) "ok", rejecting).

(** The records of the specification. *)
Definition roundTrip : object :=
  [("name", Str "A"); ("active", Bool true); ("count", Num 0)].

Definition partial : object := [("status", Null); ("name", Str "X")].

Definition partialUndefined : object :=
  [("status", Undefined); ("name", Str "X")].

(** A metadata refresh over the scripted engine: one record type, the
    layouts [describeLayouts] gives, one picklist per layout. *)
Definition recordType : object :=
  [("recordTypeId", Str "012A"); ("developerName", Str "Farmer")].

Definition picklists (layout : object) : Describe.PageLayoutResult :=
  {| Describe.picklistValuesMap :=
       [("Crop__c", [[("fieldName", Str "Crop__c"); ("value", Str "Rice")]])];
     Describe.fieldTypesMap :=
       [("Crop__c", [("name", Str "Crop__c"); ("type", Str "picklist")])] |}.

Definition refresh
    (describeLayouts : string -> list value -> Promise.task world (list object))
  : Promise.task world unit :=
  Describe.refresh sqlite "RecordType" "PageLayoutSection" "PageLayoutItem"
    "PicklistValue" "Localization" "Survey__c" "@FieldType"
    (fun r : object => get r "recordTypeId")
    (fun l : object => to_string (get l "id"))
    (Promise.ret [recordType]) describeLayouts
    (fun _ => Promise.ret tt) (fun l => Promise.ret (picklists l))
    (Promise.ret tt) (fun _ _ w => w).

Definition retrieveAllMetadata
    (describeLayouts : string -> list value -> Promise.task world (list object))
  : Promise.task world unit :=
  Describe.retrieveAllMetadata sqlite "RecordType" "PageLayoutSection"
    "PageLayoutItem" "PicklistValue" "Localization" "Survey__c" "@FieldType"
    (fun r : object => get r "recordTypeId")
    (fun l : object => to_string (get l "id"))
    (Promise.ret [recordType]) describeLayouts
    (fun _ => Promise.ret tt) (fun l => Promise.ret (picklists l))
    (Promise.ret tt) (fun _ _ w => w).

(** A remote client that fails with the given error code. *)
Definition failing (code : string)
  : string -> list value -> Promise.task world (list object) :=
  fun _ _ => Promise.throw (Obj [("error", Str code)]).

(** The cached rows of a layout with two sections: two items in the first,
    none in the second. *)
Definition sectionRows : list object :=
  [ [("id", Str "s1"); ("sectionLabel", Str "Household");
     ("layoutId", Str "L1")];
    [("id", Str "s2"); ("sectionLabel", Str "Notes"); ("layoutId", Str "L1")] ].

Definition itemRows : list object :=
  [ [("sectionId", Str "s1"); ("fieldName", Str "Name");
     ("fieldLabel", Str "Full name"); ("fieldType", Str "string");
     ("required", Num 1)];
    [("sectionId", Str "s1"); ("fieldName", Str "Crop__c");
     ("fieldLabel", Str "Crop"); ("fieldType", Str "picklist");
     ("required", Str EmptyString)] ].

Definition survey (localId : Z) : Sync.Survey :=
  {| Sync._localId := localId; Sync._syncStatus := Sync.UNSYNCED;
     Sync.Id := None; Sync.fields := [("Name", Str "survey")] |}.

End Mock.

(** ** The other operations of the Local Store *)

Module DatabaseRest.
Import JS Promise Database.

(** One pair of [updateFieldValues]. *)
Record FieldValue : Type := {
  field : string;
  value : JS.value;
}.

(** [fv.value ? fv.value.replace(/'/g, "''") : ''].  A truthy value that
    is not a string has no [replace] method: calling it throws a
    [TypeError] ([None]). *)
Definition escapedValue (v : JS.value) : option string :=
  if truthy v then
    match v with
    | Str s => Some (replace_quotes s)
    | _ => None
    end
  else Some EmptyString.

(** [fieldValues.map(fv => `${fv.field} = '${...}'`).join(', ')]: the
    first pair that throws ends the [map]. *)
Definition fieldValuePairString (fieldValues : list FieldValue)
  : option string :=
  pairs ← mapM (fun fv =>
                  escaped ← escapedValue (value fv);
                  Some (field fv +:+ " = '" +:+ escaped +:+ "'"))
               fieldValues;
  Some (join ", " pairs).

(** The error of a reply that is not a success. *)
Definition errorOf (r : reply) : option any :=
  match r with
  | Success _ => None
  | StatementError error | Thrown error => Some error
  end.

(** The number of single quotes of a text. *)
Fixpoint countQuotes (s : string) : nat :=
  match s with
  | EmptyString => 0
  | String c r =>
      if Ascii.eqb c "'"%char then S (countQuotes r) else countQuotes r
  end.

(** The value [getRecordsWithCallback] rejects with when it is given no
    statement. *)
Definition NoStatement : any :=
  Prim (Str ("Specify sql statement or use " +:+ dquote
             +:+ "getAllRecordsWithCallback" +:+ dquote +:+ " instead.")).

Section Rest.
Context {World : Type}.

Variable sqlite : string -> World -> reply * World.

(** The executor is not [async]: an exception thrown while the pairs are
    built rejects the promise, before any statement. *)
Definition updateFieldValues (tableName : string)
    (fieldValues : list FieldValue) (whereClause : string)
  : task World SQLResultSet :=
  fun w =>
    match fieldValuePairString fieldValues with
    | None => (Rejected (TypeError "fv.value.replace is not a function"), w)
    | Some fieldValuePairString =>
        let statement :=
          "update " +:+ tableName +:+ " set " +:+ fieldValuePairString
          +:+ " " +:+ whereClause in
        resolveWith Pending id (executeTransaction sqlite statement) w
    end.

(** [for (const value of Object.values(DB_TABLE)) await clearTable(value)],
    for the table names of [constants] in their order. *)
Definition clearDatabase (DB_TABLE : list string) : task World unit :=
  for_of DB_TABLE (fun value _ => clearTable sqlite value ;;; ret tt) tt.

(** The body of the two callback variants, on a promise whose state is
    [p]: [database.transaction(txn => txn.executeSql(statement, [],
    (_, {rows: {_array}}) => { onSuccess(_array); resolve(true) }),
    error => reject(error))].  The statement has no error callback of its
    own, so its failure is the failure of the transaction; the executor is
    [async], so an exception thrown by the call settles nothing. *)
Definition transactionWithCallback (statement : string)
    (onSuccess : list object -> World -> World) (p : state bool)
  : World -> state bool * World :=
  fun w =>
    match sqlite statement w with
    | (Success result, w') =>
        (settle p (Resolved true), onSuccess (rows_array result) w')
    | (StatementError error, w') => (settle p (Rejected error), w')
    | (Thrown error, w') => (p, w')
    end.

Definition getAllRecordsWithCallback (tableName : string)
    (onSuccess : list object -> World -> World) : task World bool :=
  transactionWithCallback ("select * from " +:+ tableName) onSuccess Pending.

Definition getRecordsWithCallback (statement : string)
    (onSuccess : list object -> World -> World) : task World bool :=
  let p :=
    if negb (truthy (Str statement))
    then settle Pending (Rejected NoStatement)
    else Pending in
  transactionWithCallback statement onSuccess p.
End Rest.

End DatabaseRest.

(** ** The survey editor: the reducer that follows the sync button in
    [components/surveyList/SurveyListHeaderButtons.tsx] *)

Module SurveyEditor.
Import JS.

Record Field : Type := {
  name : string;
  value : JS.value;
}.

(** [type] is one of [UPDATE], [LOAD] and [CLEAR] for the type checker;
    the reducer also answers the others.  [field] and [detail] are
    optional. *)
Record SurveyEditorAction : Type := {
  type : string;
  field : option Field;
  detail : option object;
}.

Record SurveyEditorState : Type := {
  survey : object;
}.

Definition initialState : SurveyEditorState := {| survey := [] |}.

(** The array index a property key is, if it is one: the key is the
    decimal text, without sign or leading zero, of an integer below
    2^32 - 1. *)
Definition digit (c : ascii) : option N :=
  let n := N_of_ascii c in
  if ((48 <=? n) && (n <=? 57))%N then Some (n - 48)%N else None.

Fixpoint digits (s : string) (acc : N) : option N :=
  match s with
  | EmptyString => Some acc
  | String c r => d ← digit c; digits r (10 * acc + d)%N
  end.

Definition arrayIndex (k : string) : option N :=
  n ← digits k 0%N;
  if decide (pretty n = k /\ (n < 4294967295)%N) then Some n else None.

(** The place of a new array-index key among the own properties: after
    the array-index keys below it, which come first in an object, and
    before every other key. *)
Fixpoint insertIndex {V} (o : list (string * V)) (n : N) (k : string) (v : V)
  : list (string * V) :=
  match o with
  | [] => [(k, v)]
  | (k', v') :: r =>
      match arrayIndex k' with
      | Some n' =>
          if (n' <? n)%N then (k', v') :: insertIndex r n k v
          else (k, v) :: o
      | None => (k, v) :: o
      end
  end.

(** [{...o, [k]: v}] with the order in which an object lists its own
    properties: a key the object has keeps its place; a new array-index
    key goes among the array-index keys, which are listed first, in
    ascending order; any other new key goes last. *)
Definition defineProp {V} (o : list (string * V)) (k : string) (v : V)
  : list (string * V) :=
  match lookup_prop o k with
  | Some _ => set_prop o k v
  | None =>
      match arrayIndex k with
      | Some n => insertIndex o n k v
      | None => (o ++ [(k, v)])%list
      end
  end.

(** The new state, or what the reducer throws. *)
Definition surveyReducer (state : SurveyEditorState)
    (action : SurveyEditorAction) : SurveyEditorState + any :=
  if decide (type action = "UPDATE") then
    match field action with
    | Some f =>
        inl {| survey := defineProp (survey state) (name f) (value f) |}
    | None => inr (TypeError "Cannot read property 'name' of undefined")
    end
  else if decide (type action = "LOAD") then
    inl {| survey := default [] (detail action) |}
  else if decide (type action = "CLEAR") then inl initialState
  else inr (Error "Invalid action type for SurveyReducer").

Definition UPDATE (name : string) (value : JS.value) : SurveyEditorAction :=
  {| type := "UPDATE"; field := Some {| name := name; value := value |};
     detail := None |}.

Definition LOAD (detail : object) : SurveyEditorAction :=
  {| type := "LOAD"; field := None; detail := Some detail |}.

Definition CLEAR : SurveyEditorAction :=
  {| type := "CLEAR"; field := None; detail := None |}.

End SurveyEditor.

(** ** The sync button:
    [components/surveyList/SurveyListHeaderButtons.tsx] *)

Module SyncButton.
Import JS Promise.

(** What the user answers to the confirmation: one of its two buttons, or
    a tap outside of it. *)
Inductive answer : Type := OK | CANCEL | Dismissed.

Section Button.
Context {World SurveyListItem Outcome : Type}.

(** [s._syncStatus] and the constant [SYNC_STATUS_UNSYNCED]. *)
Variable _syncStatus : SurveyListItem -> value.
Variable SYNC_STATUS_UNSYNCED : value.

(** The properties of the button and the reconciler of [services/sync]. *)
Variable setShowsSpinner : bool -> World -> World.
Variable refreshSurveys : task World unit.
Variable syncLocalSurveys : list SurveyListItem -> task World Outcome.

Definition localSurveys (surveys : list SurveyListItem)
  : list SurveyListItem :=
  filter (fun s => strict_eq (_syncStatus s) SYNC_STATUS_UNSYNCED = true)
         surveys.

Definition isSyncActive (surveys : list SurveyListItem)
    (isNetworkConnected : bool) : bool :=
  (0 <? length (localSurveys surveys))%nat && isNetworkConnected.

(** The [onPress] of the OK button of the confirmation. *)
Definition onPressOK (surveys : list SurveyListItem) : task World unit :=
  fun w =>
    (syncLocalSurveys (localSurveys surveys) ;;;
     refreshSurveys ;;;
     (fun w' => ret tt (setShowsSpinner false w')))
      (setShowsSpinner true w).

(** The [onPress] of the icon, with the answer the user gives if the
    confirmation is shown. *)
Definition onPress (surveys : list SurveyListItem)
    (isNetworkConnected : bool) (a : answer) : task World unit :=
  if isSyncActive surveys isNetworkConnected then
    match a with
    | OK => onPressOK surveys
    | _ => ret tt
    end
  else ret tt.
End Button.

End SyncButton.

(** ** Test doubles of the screen *)

Module MockUI.
Import JS Promise.

(** The screen: whether the spinner shows, and the calls made, in order. *)
Record screen : Type := {
  spinner : bool;
  calls : list string;
}.

Definition setShowsSpinner (b : bool) (w : screen) : screen :=
  {| spinner := b; calls := calls w |}.

Definition refreshSurveys : task screen unit :=
  fun w =>
    (Resolved tt,
     {| spinner := spinner w; calls := calls w ++ ["refreshSurveys"] |}).

(** A reconciler that fails when [fails] is set. *)
Definition syncLocalSurveys (fails : bool) (l : list object)
  : task screen unit :=
  fun w =>
    (if fails then Rejected (Obj [("error", Str "offline")])
     else Resolved tt,
     {| spinner := spinner w; calls := calls w ++ ["syncLocalSurveys"] |}).

Definition surveys : list object :=
  [ [("Name", Str "a"); ("_syncStatus", Str "Unsynced")];
    [("Name", Str "b"); ("_syncStatus", Str "Synced")];
    [("Name", Str "c"); ("_syncStatus", Str "Unsynced")] ].

Definition idle : screen := {| spinner := false; calls := [] |}.

(** [s._syncStatus] on the sample surveys. *)
Definition status (s : object) : value := get s "_syncStatus".

End MockUI.

(** ** Sample inputs of the other operations *)

Module Samples.
Import JS Database DatabaseRest.

Definition diskFull : any := Prim (Str "disk full").

Definition onlyNulls : object := [("status", Null); ("name", Null)].

Definition answers : list FieldValue :=
  [ {| field := "Name__c"; value := Str "O'Hara" |};
    {| field := "Notes__c"; value := Null |} ].

Definition age : FieldValue := {| field := "Age__c"; value := Num 42 |}.

End Samples.

(** * Properties *)

(** ** Property lists and values *)

Module JSFacts.
Import JS.

Lemma strict_eq_Null (v : value) : strict_eq v Null = true <-> v = Null.
Proof.
  destruct v; simpl; rewrite ?bool_decide_eq_true; split; congruence.
Qed.

Lemma strict_eq_Str (v : value) (s : string) :
  strict_eq v (Str s) = true <-> v = Str s.
Proof.
  destruct v; simpl; rewrite ?bool_decide_eq_true; split; congruence.
Qed.

Section PropLists.
Context {V : Type}.
Implicit Types (o : list (string * V)) (k : string) (v : V).

Lemma set_prop_fresh o k v : k ∉ o.*1 -> set_prop o k v = (o ++ [(k, v)])%list.
Proof.
  induction o as [|[k' v'] o IH]; simpl; intros Hk; [done|].
  apply not_elem_of_cons in Hk as [Hne Hk].
  destruct (decide (k' = k)); [congruence|]. by rewrite IH.
Qed.

Lemma lookup_prop_elem o k v :
  NoDup o.*1 -> (k, v) ∈ o -> lookup_prop o k = Some v.
Proof.
  induction o as [|[k' v'] o IH]; simpl; intros Hnd Hin.
  - by apply elem_of_nil in Hin.
  - apply NoDup_cons in Hnd as [Hk' Hnd].
    apply elem_of_cons in Hin as [Heq|Hin].
    + inversion Heq; subst. by rewrite decide_True.
    + destruct (decide (k' = k)) as [->|]; [|by apply IH].
      exfalso. apply Hk'. apply list_elem_of_fmap. by exists (k, v).
Qed.

Lemma lookup_prop_None o k : k ∉ o.*1 -> lookup_prop o k = None.
Proof.
  induction o as [|[k' v'] o IH]; simpl; intros Hk; [done|].
  apply not_elem_of_cons in Hk as [Hne Hk].
  destruct (decide (k' = k)); [congruence|]. by apply IH.
Qed.

(** Building an object property by property from a list with distinct
    keys gives the properties in the order of the list. *)
Lemma foldl_set_prop {A} (f : A -> V) (l : list (string * A)) o :
  NoDup (o.*1 ++ l.*1) ->
  foldl (fun result '(key, value) => set_prop result key (f value)) o l
  = (o ++ (prod_map id f <$> l))%list.
Proof.
  revert o. induction l as [|[k a] l IH]; simpl; intros o Hnd.
  - by rewrite app_nil_r.
  - rewrite set_prop_fresh.
    + rewrite IH; [by rewrite <- app_assoc|].
      rewrite fmap_app; simpl. by rewrite <- app_assoc.
    + apply NoDup_app in Hnd as (_ & Hnd & _).
      intros Hin. apply (Hnd k Hin). left.
Qed.
End PropLists.

Lemma replace_quotes_spec (s : string) : replace_quotes s = doubleEachQuote s.
Proof.
  unfold doubleEachQuote. induction s as [|c s IH]; simpl; [done|].
  rewrite IH. destruct (Ascii.eqb_spec c "'"%char) as [->|Hne].
  - by rewrite decide_True.
  - by rewrite decide_False.
Qed.

End JSFacts.

(** ** The Local Store *)

Module DatabaseFacts.
Import JS Promise Database JSFacts.

Lemma filter_ext_in {A} (P Q : A -> Prop)
    `{!forall x, Decision (P x), !forall x, Decision (Q x)} (l : list A) :
  (forall x, x ∈ l -> P x <-> Q x) -> filter P l = filter Q l.
Proof.
  induction l as [|a l IH]; intros Hiff; [done|].
  rewrite !filter_cons.
  rewrite IH by (intros x Hx; apply Hiff; by right).
  apply decide_ext, Hiff. left.
Qed.

(** On an object, whose keys are distinct, [convertObjectToSQLite] converts
    the values and keeps the keys and their order. *)
Lemma convertObjectToSQLite_wf (record : object) :
  wf record ->
  convertObjectToSQLite record = prod_map id sqliteValue <$> record.
Proof.
  intros Hwf. unfold convertObjectToSQLite.
  by rewrite (foldl_set_prop sqliteValue record []).
Qed.

Lemma convertObjectToSQLite_keys (record : object) :
  wf record -> keys (convertObjectToSQLite record) = keys record.
Proof.
  intros Hwf. rewrite convertObjectToSQLite_wf by done.
  unfold keys. rewrite <- list_fmap_compose. by apply list_fmap_ext; intros ? [].
Qed.

Lemma convertObjectToSQLite_get (record : object) (k : string) (v : value) :
  wf record -> (k, v) ∈ record ->
  get (convertObjectToSQLite record) k = sqliteValue v.
Proof.
  intros Hwf Hin. unfold get.
  rewrite (lookup_prop_elem _ k (sqliteValue v)); [done| |].
  - fold (keys (convertObjectToSQLite record)).
    by rewrite convertObjectToSQLite_keys.
  - rewrite convertObjectToSQLite_wf by done.
    apply list_elem_of_fmap. by exists (k, v).
Qed.

(** The deletions of [updateRecord]: the properties whose key is the key of
    a [null] entry go, whatever the object looked at. *)
Lemma foldl_delete_nulls (entries current : object) :
  foldl (fun current '(key, value) =>
           if strict_eq value Null then delete_prop current key else current)
        current entries
  = filter (fun kv => kv.1 ∉ (filter (fun kv => kv.2 = Null) entries).*1)
           current.
Proof.
  revert current. induction entries as [|[k v] entries IH]; intros current.
  - change (current = filter (fun kv => kv.1 ∉ @nil string) current).
    induction current as [|kv current IHc]; [done|].
    rewrite filter_cons_True by apply not_elem_of_nil. by f_equal.
  - cbn [foldl]. rewrite IH. destruct (strict_eq v Null) eqn:Hv.
    + apply strict_eq_Null in Hv as ->. unfold delete_prop.
      rewrite list_filter_filter, filter_cons_True by done.
      apply list_filter_iff. intros [k' v']; simpl.
      rewrite not_elem_of_cons. tauto.
    + rewrite filter_cons_False; [done|].
      simpl. intros ->. by rewrite (proj2 (strict_eq_Null Null)) in Hv.
Qed.

Lemma deleteNulls_filter (record : object) :
  wf record -> deleteNulls record = filter (fun kv => kv.2 <> Null) record.
Proof.
  intros Hwf. unfold deleteNulls. rewrite foldl_delete_nulls.
  apply filter_ext_in. intros [k v] Hin; simpl. split.
  - intros Hk ->. apply Hk. apply list_elem_of_fmap. exists (k, Null).
    split; [done|]. by apply list_elem_of_filter.
  - intros Hv Hk. apply list_elem_of_fmap in Hk as ([k' v'] & Heq & Hin').
    simpl in Heq; subst k'.
    apply list_elem_of_filter in Hin' as [Hnull Hin']; simpl in Hnull.
    subst v'. apply Hv.
    pose proof (lookup_prop_elem _ _ _ Hwf Hin) as H1.
    pose proof (lookup_prop_elem _ _ _ Hwf Hin') as H2. congruence.
Qed.

Lemma deleteNulls_wf (record : object) : wf record -> wf (deleteNulls record).
Proof.
  intros Hwf. rewrite deleteNulls_filter by done. unfold wf, keys in *.
  induction record as [|[k v] record IH]; [done|].
  apply NoDup_cons in Hwf as [Hk Hwf]. rewrite filter_cons.
  case_decide; [|by apply IH]. csimpl. apply NoDup_cons. split; [|by apply IH].
  intros Hin. apply Hk. apply list_elem_of_fmap in Hin as (kv & -> & Hin).
  apply list_elem_of_filter in Hin as [_ Hin].
  apply list_elem_of_fmap. by exists kv.
Qed.

Section StoreFacts.
Context {World : Type} (sqlite : string -> World -> reply * World).

Lemma resolveWith_id (t : task World SQLResultSet) (w : World) :
  resolveWith Pending id t w = t w.
Proof. unfold resolveWith. by destruct (t w) as [[]]. Qed.

(** With a filter, [getRecords] resolves to the rows of its statement. *)
Lemma getRecords_resolves
    (tableName : string) (whereClause : value) (w w' : World)
    (result : SQLResultSet) :
  truthy whereClause = true ->
  sqlite ("select * from " +:+ tableName +:+ " " +:+ to_string whereClause) w
  = (Success result, w') ->
  getRecords sqlite tableName whereClause w
  = (Resolved (rows_array result), w').
Proof.
  intros Htruthy Hrun.
  unfold getRecords, resolveWith, executeTransaction.
  by rewrite Htruthy, Hrun.
Qed.

(** Without a primary key, [prepareTable] declares the synthetic
    identifier first, then the columns of the record. *)
Lemma fieldsInStatement_localId
    (fieldTypeMappings : list SQLiteFieldTypeMapping) :
  fieldsInStatement fieldTypeMappings Undefined
  = "_localId integer primary key autoincrement" +:+ ","
    +:+ join "," ((fun field => name field +:+ " " +:+ type field)
                  <$> fieldTypeMappings).
Proof. reflexivity. Qed.

(** C1, at the input on which the code leaves the claim: a [false] field
    is written as the text [''], not as 0, because the test [!value] comes
    before the test of the boolean type; a [true] field is written as 1. *)
Theorem convertObjectToSQLite_false_is_empty_text :
  convertObjectToSQLite [("name", Str "A"); ("active", Bool false)]
  = [("name", Str "'A'"); ("active", Str "''")]
  /\ sqliteValue (Bool false) = Str "''"
  /\ sqliteValue (Bool true) = Num 1.
Proof. by vm_compute. Qed.

(** C2: in the object [convertObjectToSQLite] builds from a record, a field
    whose value is falsy and not a boolean (0, the empty string, [null],
    [undefined], [NaN]) holds the empty-text literal [''], and a field
    whose value is a non-empty string holds that string between single
    quotes with each single quote of it doubled. *)
Theorem convertObjectToSQLite_falsy_and_text
    (record : object) (k : string) (v : value) :
  wf record -> (k, v) ∈ record ->
  (typeof v <> TBoolean -> truthy v = false ->
   get (convertObjectToSQLite record) k = Str "''")
  /\ (v = Num 0 \/ v = Str EmptyString \/ v = Null \/ v = Undefined ->
      get (convertObjectToSQLite record) k = Str "''")
  /\ (forall s, v = Str s -> truthy v = true ->
      get (convertObjectToSQLite record) k
      = Str ("'" +:+ doubleEachQuote s +:+ "'")).
Proof.
  intros Hwf Hin. rewrite (convertObjectToSQLite_get record k v Hwf Hin).
  split; [|split].
  - intros _ Hv. unfold sqliteValue. by rewrite Hv.
  - by intros [->|[->|[->| ->]]].
  - intros s -> Hs. unfold sqliteValue. rewrite Hs. simpl.
    by rewrite replace_quotes_spec.
Qed.

(** C7: [getRecords] without a filter ([undefined], [null] or the empty
    string) rejects with [InvalidArgument]; [getAllRecords] takes no filter
    and settles as the engine answers its one statement: it resolves to the
    rows on success and rejects with the error of the engine otherwise. *)
Theorem getRecords_requires_filter
    (tableName : string) (whereClause : value) (w : World) :
  truthy whereClause = false ->
  (getRecords sqlite tableName whereClause w).1 = Rejected InvalidArgument
  /\ (getAllRecords sqlite tableName w).1
     = match (sqlite ("select * from " +:+ tableName) w).1 with
       | Success result => Resolved (rows_array result)
       | StatementError error | Thrown error => Rejected error
       end.
Proof.
  intros Hfalsy. split.
  - unfold getRecords, resolveWith. rewrite Hfalsy. simpl.
    by destruct (executeTransaction _ _ _) as [[]].
  - unfold getAllRecords, resolveWith, executeTransaction.
    by destruct (sqlite _ w) as [[] ?].
Qed.

(** C8: [saveRecords] of no record resolves to the empty array and leaves
    the world as it was, whatever the engine is: the engine is not
    called. *)
Theorem saveRecords_empty
    (tableName : string) (primaryKey : value) (w : World) :
  saveRecords sqlite tableName [] primaryKey w = (Resolved (NoRecords []), w).
Proof. reflexivity. Qed.

Lemma assignments_wf (o : object) :
  wf o ->
  assignments o
  = prod_map id sqliteValue <$> filter (fun kv => kv.2 <> Null) o.
Proof.
  intros Hwf. unfold assignments.
  rewrite convertObjectToSQLite_wf by by apply deleteNulls_wf.
  by rewrite deleteNulls_filter.
Qed.

(** C6, amended: [updateRecord] runs one statement,
    [update <table> set <k = v, ...> <filter>], whose [set] list has, in
    the order of the record, one assignment for every field of the record
    whose value is not [null], and none for any other column: a [null]
    field and a field the record does not have are not assigned, and a
    field whose value is [undefined] is assigned the empty text. *)
Theorem updateRecord_assigns_non_null
    (tableName : string) (record : ref) (whereClause : string)
    (h : gmap ref object) (w : World) (o : object) :
  h !! record = Some o -> wf o ->
  let statement :=
    "update " +:+ tableName +:+ " set "
    +:+ join "," ((fun kv => kv.1 +:+ " = " +:+ to_string (sqliteValue kv.2))
                  <$> filter (fun kv => kv.2 <> Null) o)
    +:+ " " +:+ whereClause in
  let r := updateRecord sqlite tableName record whereClause h w in
  (r.1.1, r.2) = executeTransaction sqlite statement w
  /\ (forall k v, (k, v) ∈ o -> v <> Null ->
      (k, sqliteValue v) ∈ assignments o)
  /\ (forall k, (k, Null) ∈ o -> k ∉ keys (assignments o))
  /\ (forall k, k ∉ keys o -> k ∉ keys (assignments o))
  /\ (forall k, (k, Undefined) ∈ o -> (k, Str "''") ∈ assignments o).
Proof.
  intros Hh Hwf statement r. subst r. unfold updateRecord. rewrite Hh.
  rewrite lookup_insert_eq. cbn [default from_option id]. rewrite resolveWith_id.
  assert (updateStatement tableName (deleteNulls o) whereClause = statement)
    as ->.
  { unfold updateStatement, keyValues, statement.
    fold (assignments o). rewrite assignments_wf by done.
    by rewrite <- list_fmap_compose. }
  destruct (executeTransaction sqlite statement w) as [p w'] eqn:He.
  split; [done|]. rewrite assignments_wf by done.
  assert (forall k v, (k, v) ∈ o -> v <> Null ->
            (k, sqliteValue v)
            ∈ prod_map id sqliteValue <$> filter (fun kv => kv.2 <> Null) o)
    as Hset.
  { intros k v Hin Hv. apply list_elem_of_fmap. exists (k, v).
    split; [done|]. by apply list_elem_of_filter. }
  assert (forall k,
            k ∈ keys (prod_map id sqliteValue
                        <$> filter (fun kv => kv.2 <> Null) o) ->
            exists v, (k, v) ∈ o /\ v <> Null) as Hkeys.
  { intros k Hk. unfold keys in Hk.
    apply list_elem_of_fmap in Hk as ([k' v'] & -> & Hk).
    apply list_elem_of_fmap in Hk as ([k0 v0] & Heq & Hk).
    apply list_elem_of_filter in Hk as [Hv Hk]. simpl in *.
    inversion Heq; subst. by exists v0. }
  split; [done|]. split; [|split].
  - intros k Hnull Hk. apply Hkeys in Hk as (v & Hin & Hv). apply Hv.
    pose proof (lookup_prop_elem _ _ _ Hwf Hin) as H1.
    pose proof (lookup_prop_elem _ _ _ Hwf Hnull) as H2. congruence.
  - intros k Hk Hk'. apply Hkeys in Hk' as (v & Hin & _). apply Hk.
    apply list_elem_of_fmap. by exists (k, v).
  - intros k Hin. by apply (Hset k Undefined).
Qed.

(** C10: [updateRecord] changes the object its caller passed: after the
    call, whatever the engine answered, the object the reference names has
    lost every property whose value was [null] and kept the others, in
    their order; no other object of the heap is changed. *)
Theorem updateRecord_deletes_null_keys
    (tableName : string) (record : ref) (whereClause : string)
    (h : gmap ref object) (w : World) (o : object) :
  h !! record = Some o -> wf o ->
  let h' := (updateRecord sqlite tableName record whereClause h w).1.2 in
  h' !! record = Some (filter (fun kv => kv.2 <> Null) o)
  /\ (forall k, (k, Null) ∈ o ->
      k ∉ keys (filter (fun kv => kv.2 <> Null) o))
  /\ (forall k v, (k, v) ∈ o -> v <> Null ->
      (k, v) ∈ filter (fun kv => kv.2 <> Null) o)
  /\ (forall other, other <> record -> h' !! other = h !! other).
Proof.
  intros Hh Hwf h'. subst h'. unfold updateRecord. rewrite Hh.
  destruct (resolveWith _ _ _ _) as [p w']. cbn [fst snd].
  rewrite deleteNulls_filter by done. split; [|split; [|split]].
  - by rewrite lookup_insert_eq.
  - intros k Hnull Hk. apply list_elem_of_fmap in Hk as ([k' v'] & -> & Hk).
    apply list_elem_of_filter in Hk as [Hv Hk]. simpl in *. apply Hv.
    pose proof (lookup_prop_elem _ _ _ Hwf Hk) as H1.
    pose proof (lookup_prop_elem _ _ _ Hwf Hnull) as H2. congruence.
  - intros k v Hin Hv. by apply list_elem_of_filter.
  - intros other Hne. by rewrite lookup_insert_ne.
Qed.
End StoreFacts.

End DatabaseFacts.

(** ** The Local Store on the records of the specification *)

Module DatabaseExamples.
Import JS Promise Database DatabaseFacts Mock.

(** The statements [saveRecords] sends for [{name: 'A', active: true,
    count: 0}]: [active] is written as 1 and [count] as the empty text. *)
Example saveRecords_round_trip :
  saveRecords Mock.sqlite "Survey" [roundTrip] Undefined (Mock.fresh [])
  = (Resolved (Inserted Mock.noRows),
     {| Mock.script := [];
        Mock.log :=
          ["create table if not exists Survey (_localId integer primary key autoincrement,name text,active integer,count integer);";
           "insert into Survey (name,active,count) values ('A',1,'')"] |}).
Proof. by vm_compute. Qed.

(** A single quote in a text value is doubled in the statement. *)
Example saveRecords_escapes_quotes :
  insertStatement "Survey" [[("name", Str "O'Hara")]]
  = "insert into Survey (name) values ('O''Hara')".
Proof. by vm_compute. Qed.

(** When the table cannot be prepared, the promise of [saveRecords] is
    never settled. *)
Example saveRecords_pending :
  (saveRecords Mock.sqlite "Survey" [roundTrip] Undefined
     (Mock.fresh [StatementError (Prim (Str "disk full"))])).1 = Pending.
Proof. by vm_compute. Qed.

Lemma convertObjectToSQLite_falsy_and_text_witness :
  (wf roundTrip /\ ("count", Num 0) ∈ roundTrip)
  /\ get (convertObjectToSQLite roundTrip) "count" = Str "''".
Proof.
  assert (wf roundTrip) as Hwf by evaluated.
  assert (("count", Num 0) ∈ roundTrip) as Hin by evaluated.
  split; [done|].
  apply (proj1 (convertObjectToSQLite_falsy_and_text roundTrip "count" (Num 0)
                  Hwf Hin)); done.
Defined.

Lemma getRecords_requires_filter_witness :
  truthy Undefined = false
  /\ (getRecords Mock.sqlite "Survey" Undefined (Mock.fresh [])).1
     = Rejected InvalidArgument.
Proof.
  split; [reflexivity|].
  apply (getRecords_requires_filter Mock.sqlite "Survey" Undefined
           (Mock.fresh [])).
  reflexivity.
Defined.

(** The statement is run all the same, after the rejection. *)
Example getRecords_runs_the_statement :
  Mock.log (getRecords Mock.sqlite "Survey" Undefined (Mock.fresh [])).2
  = ["select * from Survey undefined"].
Proof. by vm_compute. Qed.

(** C6 as the specification states it does not hold: a field that is
    present with the value [undefined] is not excluded from the update, it
    is set to the empty text. *)
Lemma updateRecord_undefined_is_assigned :
  Mock.log
    (updateRecord Mock.sqlite "Survey" 1%positive "where _localId = 1"
       {[1%positive := partialUndefined]} (Mock.fresh [])).2
  = ["update Survey set status = '',name = 'X' where _localId = 1"]
  /\ ~ (forall (record : object) (k : string) (v : value),
         wf record -> (k, v) ∈ record -> v = Null \/ v = Undefined ->
         k ∉ keys (assignments record)).
Proof.
  split; [by vm_compute|].
  intros Hclaim.
  apply (Hclaim partialUndefined "status" Undefined); [evaluated..|by right|].
  evaluated.
Qed.

Lemma updateRecord_assigns_non_null_witness :
  (({[1%positive := partial]} : gmap ref object) !! 1%positive = Some partial
   /\ wf partial)
  /\ (("name", Str "'X'") ∈ assignments partial)
  /\ ("status" ∉ keys (assignments partial))
  /\ (updateRecord Mock.sqlite "Survey" 1%positive "where _localId = 1"
        {[1%positive := partial]} (Mock.fresh [])).2
     = {| Mock.script := [];
          Mock.log := ["update Survey set name = 'X' where _localId = 1"] |}.
Proof.
  assert (({[1%positive := partial]} : gmap ref object) !! 1%positive
          = Some partial) as Hh by reflexivity.
  assert (wf partial) as Hwf by evaluated.
  split; [done|].
  destruct (updateRecord_assigns_non_null Mock.sqlite "Survey" 1%positive
              "where _localId = 1" {[1%positive := partial]} (Mock.fresh [])
              partial Hh Hwf) as (Hrun & Hset & Hnull & _).
  split; [|split].
  - apply (Hset "name" (Str "X")); [evaluated|done].
  - apply Hnull. evaluated.
  - by apply (f_equal snd) in Hrun.
Defined.

Lemma updateRecord_deletes_null_keys_witness :
  (({[1%positive := partial]} : gmap ref object) !! 1%positive = Some partial
   /\ wf partial)
  /\ (updateRecord Mock.sqlite "Survey" 1%positive "where _localId = 1"
        {[1%positive := partial]} (Mock.fresh [])).1.2 !! 1%positive
     = Some [("name", Str "X")].
Proof.
  assert (({[1%positive := partial]} : gmap ref object) !! 1%positive
          = Some partial) as Hh by reflexivity.
  assert (wf partial) as Hwf by evaluated.
  split; [done|].
  apply (updateRecord_deletes_null_keys Mock.sqlite "Survey" 1%positive
           "where _localId = 1" {[1%positive := partial]} (Mock.fresh [])
           partial Hh Hwf).
Defined.

End DatabaseExamples.

(** ** The Layout Assembler and the Metadata Cache *)

Module DescribeFacts.
Import JS Promise Describe.

(** Among items none of which has an inherited property name for section
    id, the [reduce] of [groupBySectionId] ends, and its dictionary holds,
    under a key, the items of that key in their order, and nothing under a
    key no item has. *)
Lemma groupBySectionId_lookup (items : list object) :
  (forall item, item ∈ items ->
     inherited (to_string (get item "sectionId")) = false) ->
  exists sectionIdToItems,
    groupBySectionId items = Some sectionIdToItems
    /\ forall key,
        sectionIdToItems !! key
        = if decide (itemsOf key items = []) then None
          else Some (itemsOf key items).
Proof.
  unfold groupBySectionId, itemsOf.
  induction items as [|item items IH] using rev_ind; intros Hown.
  - by exists ∅.
  - destruct IH as (d & Hd & Hlookup).
    { intros ? ?. apply Hown, elem_of_app. by left. }
    rewrite foldl_snoc, Hd. cbn [mbind option_bind]. cbn zeta.
    unfold readProp. rewrite Hlookup.
    rewrite (Hown item) by (apply elem_of_app; right; left).
    set (key := to_string (get item "sectionId")).
    set (mine := filter _ items).
    eexists (<[key := (mine ++ [item])%list]> d). split.
    { subst mine. by case_decide as Hnil; [rewrite Hnil|]. }
    intros key'. rewrite filter_app.
    destruct (decide (key = key')) as [<-|Hne].
    + rewrite lookup_insert_eq, filter_cons_True, filter_nil by done.
      by rewrite decide_False by (by intros [_ ?]%app_eq_nil).
    + rewrite lookup_insert_ne, Hlookup, filter_cons_False, filter_nil
        by done.
      by rewrite app_nil_r.
Qed.

(** The dictionary of [groupBySectionId] has no own property under an
    inherited property name. *)
Lemma groupBySectionId_own (items : list object)
    (sectionIdToItems : gmap string (list object)) (key : string) :
  groupBySectionId items = Some sectionIdToItems ->
  inherited key = true -> sectionIdToItems !! key = None.
Proof.
  unfold groupBySectionId. revert sectionIdToItems.
  induction items as [|item items IH] using rev_ind;
    intros d Hd Hkey.
  - by simplify_eq/=.
  - rewrite foldl_snoc in Hd. destruct (foldl _ _ items) as [d0|]; [|done].
    cbn [mbind option_bind] in Hd. cbn zeta in Hd. unfold readProp in Hd.
    specialize (IH d0 eq_refl Hkey).
    destruct (d0 !! to_string (get item "sectionId")) as [l|] eqn:Hl.
    + simplify_eq. rewrite lookup_insert_ne; [done|]. congruence.
    + destruct (inherited (to_string (get item "sectionId"))) eqn:Hi;
        [done|].
      simplify_eq. rewrite lookup_insert_ne; [done|]. congruence.
Qed.

(** The written form of a field descriptor. *)
Lemma fieldOfItem_fields (item : object) :
  fieldOfItem item
  = {| name := get item "fieldName"; label := get item "fieldLabel";
       type := get item "fieldType";
       required := truthy (get item "required") |}.
Proof. unfold fieldOfItem. by rewrite negb_involutive. Qed.

Lemma assemble_sections (sections items : list object) :
  (forall s, s ∈ sections -> inherited (to_string (get s "id")) = false) ->
  (forall item, item ∈ items ->
     inherited (to_string (get item "sectionId")) = false) ->
  assemble sections items
  = inr {| sections :=
             (fun s =>
                {| id := get s "id";
                   title := get s "sectionLabel";
                   data :=
                     fieldOfItem <$> itemsOf (to_string (get s "id")) items |})
             <$> sections |}.
Proof.
  intros Hsections Hitems. unfold assemble.
  destruct (groupBySectionId_lookup items Hitems) as (d & -> & Hlookup).
  erewrite mapM_Some_2; [done|].
  apply Forall2_fmap_r, Forall_Forall2_diag, Forall_forall. intros s Hs.
  unfold sectionOf, readProp. rewrite Hlookup, (Hsections s Hs).
  unfold compose. by case_decide as Hnil; [rewrite Hnil|].
Qed.

Section MetadataFacts.
Context {World RecordType DescribeLayout : Type}.
Context (sqlite : string -> World -> Database.reply * World).
Context (RECORD_TYPE PAGE_LAYOUT_SECTION PAGE_LAYOUT_ITEM PICKLIST_VALUE
         LOCALIZATION SURVEY_OBJECT FIELD_TYPE : string).
Context (recordTypeId : RecordType -> value).
Context (layoutId : DescribeLayout -> string).
Context (storeRecordTypesWithCompactLayout : task World (list RecordType)).
Context (describeLayouts :
           string -> list value -> task World (list DescribeLayout)).
Context (storePageLayoutSections : DescribeLayout -> task World unit).
Context (storePageLayoutItems : DescribeLayout -> task World PageLayoutResult).
Context (storeLocalization : task World unit).
Context (storageSave : string -> object -> World -> World).

Abbreviation refresh :=
  (Describe.refresh sqlite RECORD_TYPE PAGE_LAYOUT_SECTION PAGE_LAYOUT_ITEM
     PICKLIST_VALUE LOCALIZATION SURVEY_OBJECT FIELD_TYPE recordTypeId
     layoutId storeRecordTypesWithCompactLayout describeLayouts
     storePageLayoutSections storePageLayoutItems storeLocalization
     storageSave).

Abbreviation retrieveAllMetadata :=
  (Describe.retrieveAllMetadata sqlite RECORD_TYPE PAGE_LAYOUT_SECTION
     PAGE_LAYOUT_ITEM PICKLIST_VALUE LOCALIZATION SURVEY_OBJECT FIELD_TYPE
     recordTypeId layoutId storeRecordTypesWithCompactLayout describeLayouts
     storePageLayoutSections storePageLayoutItems storeLocalization
     storageSave).

Abbreviation buildLayoutDetail :=
  (Describe.buildLayoutDetail sqlite PAGE_LAYOUT_SECTION PAGE_LAYOUT_ITEM).

(** What [retrieveAllMetadata] returns: the promise of the [try] block,
    but for a rejection, which the [catch] block replaces by its own. *)
Lemma retrieveAllMetadata_outcome (w : World) :
  retrieveAllMetadata w
  = match refresh w with
    | (Rejected e, w') => (Rejected (translate e), w')
    | r => r
    end.
Proof. reflexivity. Qed.

Lemma translate_cases (e : any) :
  nullish e = false ->
  exists code,
    get_any e "error" = Some code
    /\ translate e
       = Error (if decide (code = Str "invalid_record_type")
                then invalidRecordTypeMessage
                else if decide (code = Str "no_editable_fields")
                then noEditableFieldsMessage
                else unexpectedErrorMessage).
Proof.
  intros He. unfold translate.
  destruct (get_any e "error") as [code|] eqn:Hcode.
  - exists code. split; [done|].
    destruct (strict_eq code (Str "invalid_record_type")) eqn:H1.
    { apply JSFacts.strict_eq_Str in H1. by rewrite decide_True. }
    rewrite decide_False
      by (intros Heq; apply JSFacts.strict_eq_Str in Heq; congruence).
    destruct (strict_eq code (Str "no_editable_fields")) eqn:H2.
    { apply JSFacts.strict_eq_Str in H2. by rewrite decide_True. }
    by rewrite decide_False
      by (intros Heq; apply JSFacts.strict_eq_Str in Heq; congruence).
  - by destruct e as [[]|].
Qed.

(** C3: when a step of the refresh throws an error value [e] (anything but
    [null] and [undefined], on which reading [e.error] would itself throw),
    [retrieveAllMetadata] rejects with the message of invalid record types
    if [e.error] is [invalid_record_type], with the message of missing
    editable fields if it is [no_editable_fields], and with the generic
    message in every other case; what it rejects with is always one of
    these three errors, never [e] as it was thrown. *)
Theorem retrieveAllMetadata_translates (w w' : World) (e : any) :
  refresh w = (Rejected e, w') -> nullish e = false ->
  exists code,
    get_any e "error" = Some code
    /\ (code = Str "invalid_record_type" ->
        retrieveAllMetadata w
        = (Rejected (Error invalidRecordTypeMessage), w'))
    /\ (code = Str "no_editable_fields" ->
        retrieveAllMetadata w
        = (Rejected (Error noEditableFieldsMessage), w'))
    /\ (code <> Str "invalid_record_type" ->
        code <> Str "no_editable_fields" ->
        retrieveAllMetadata w
        = (Rejected (Error unexpectedErrorMessage), w'))
    /\ exists message,
        message ∈ [invalidRecordTypeMessage; noEditableFieldsMessage;
                   unexpectedErrorMessage]
        /\ retrieveAllMetadata w = (Rejected (Error message), w').
Proof.
  intros Hthrow He. rewrite retrieveAllMetadata_outcome, Hthrow.
  destruct (translate_cases e He) as (code & Hcode & ->).
  exists code. split; [done|]. repeat split.
  - intros ->. by rewrite decide_True.
  - intros ->. by rewrite decide_False, decide_True.
  - intros H1 H2. by rewrite !decide_False.
  - eexists. split; [|done]. repeat case_decide; set_solver.
Qed.

(** C5: when the two queries give the section rows and the item rows, and
    no id among them is the name of a property every object inherits,
    [buildLayoutDetail] resolves to a layout with one entry per section
    row, in the order of the rows; the entry of a section has its id and
    label, and its [data] are the descriptors of the item rows of that
    section, in the order of the rows, each with the name, the label and
    the type of the item and whether its required flag is truthy; the
    [data] of a section that has no item row is the empty array. *)
Theorem buildLayoutDetail_sections
    (layout : string) (w w1 w2 : World)
    (sections items : Database.SQLResultSet) :
  sqlite ("select * from " +:+ PAGE_LAYOUT_SECTION +:+ " "
          +:+ ("where layoutId='" +:+ layout +:+ "'")) w
  = (Database.Success sections, w1) ->
  sqlite ("select * from " +:+ PAGE_LAYOUT_ITEM +:+ " "
          +:+ ("where sectionId in ("
               +:+ join "," ((fun s => "'" +:+ to_string (get s "id") +:+ "'")
                             <$> Database.rows_array sections)
               +:+ ")")) w1
  = (Database.Success items, w2) ->
  (forall s, s ∈ Database.rows_array sections ->
     inherited (to_string (get s "id")) = false) ->
  (forall item, item ∈ Database.rows_array items ->
     inherited (to_string (get item "sectionId")) = false) ->
  exists result,
    buildLayoutDetail layout w = (Resolved result, w2)
    /\ Describe.sections result
       = (fun s =>
            {| id := get s "id";
               title := get s "sectionLabel";
               data :=
                 (fun item =>
                    {| name := get item "fieldName";
                       label := get item "fieldLabel";
                       type := get item "fieldType";
                       required := truthy (get item "required") |})
                 <$> filter (fun item =>
                               to_string (get item "sectionId")
                               = to_string (get s "id"))
                            (Database.rows_array items) |})
         <$> Database.rows_array sections
    /\ length (Describe.sections result)
       = length (Database.rows_array sections)
    /\ forall i s,
        Database.rows_array sections !! i = Some s ->
        exists entry,
          Describe.sections result !! i = Some entry
          /\ id entry = get s "id"
          /\ title entry = get s "sectionLabel"
          /\ data entry
             = (fun item =>
                  {| name := get item "fieldName";
                     label := get item "fieldLabel";
                     type := get item "fieldType";
                     required := truthy (get item "required") |})
               <$> filter (fun item =>
                             to_string (get item "sectionId")
                             = to_string (get s "id"))
                          (Database.rows_array items)
          /\ ((forall item, item ∈ Database.rows_array items ->
                 to_string (get item "sectionId") <> to_string (get s "id")) ->
              data entry = []).
Proof.
  intros Hsections Hitems Hids Hsids.
  eexists. split.
  { unfold Describe.buildLayoutDetail, await.
    erewrite DatabaseFacts.getRecords_resolves;
      [|reflexivity|exact Hsections].
    rewrite <- list_fmap_compose.
    erewrite DatabaseFacts.getRecords_resolves;
      [|reflexivity|exact Hitems].
    by rewrite (assemble_sections _ _ Hids Hsids). }
  cbn [Describe.sections].
  assert (forall s,
            fieldOfItem
            <$> itemsOf (to_string (get s "id")) (Database.rows_array items)
            = (fun item =>
                 {| name := get item "fieldName";
                    label := get item "fieldLabel";
                    type := get item "fieldType";
                    required := truthy (get item "required") |})
              <$> filter (fun item =>
                            to_string (get item "sectionId")
                            = to_string (get s "id"))
                         (Database.rows_array items)) as Hdata.
  { intros s. apply list_fmap_ext. intros _ item _.
    apply fieldOfItem_fields. }
  split; [|split].
  - apply list_fmap_ext. intros _ s _. by rewrite Hdata.
  - by rewrite length_fmap.
  - intros i s Hi. rewrite list_lookup_fmap, Hi.
    eexists. split; [done|]. cbn [id title data].
    split; [done|]. split; [done|]. split; [apply Hdata|].
    intros Hnone. replace (itemsOf _ _) with (@nil object); [done|].
    symmetry. unfold itemsOf. clear Hitems Hsids Hdata.
    induction (Database.rows_array items) as [|item l IH]; [done|].
    rewrite filter_cons_False by (apply Hnone; left).
    apply IH. intros ? ?. apply Hnone. by right.
Qed.
End MetadataFacts.

(** A refresh that meets no error: two record types share one layout, so
    the layout is stored once, and its picklist values are saved. *)
Example retrieveAllMetadata_resolves :
  let body : object := [("id", Str "L1")] in
  Mock.retrieveAllMetadata (fun _ _ => ret [body; body]) (Mock.fresh [])
  = (Resolved tt,
     {| Mock.script := [];
        Mock.log :=
          ["DROP TABLE IF EXISTS RecordType;";
           "DROP TABLE IF EXISTS PageLayoutSection;";
           "DROP TABLE IF EXISTS PageLayoutItem;";
           "DROP TABLE IF EXISTS PicklistValue;";
           "create table if not exists PicklistValue (_localId integer primary key autoincrement,fieldName text,value text);";
           "insert into PicklistValue (fieldName,value) values ('Crop__c','Rice')";
           "DROP TABLE IF EXISTS Localization;"] |}).
Proof. by vm_compute. Qed.

(** A thrown [undefined] is outside the translation: reading its [error]
    property throws. *)
Example translate_undefined :
  translate (Prim Undefined) = TypeError "Cannot read property 'error'".
Proof. reflexivity. Qed.

Lemma retrieveAllMetadata_translates_witness :
  let e := Obj [("error", Str "invalid_record_type")] in
  let w' :=
    {| Mock.script := [];
       Mock.log :=
         ["DROP TABLE IF EXISTS RecordType;";
          "DROP TABLE IF EXISTS PageLayoutSection;";
          "DROP TABLE IF EXISTS PageLayoutItem;"] |} in
  (Mock.refresh (Mock.failing "invalid_record_type") (Mock.fresh [])
   = (Rejected e, w')
   /\ nullish e = false)
  /\ Mock.retrieveAllMetadata (Mock.failing "invalid_record_type")
       (Mock.fresh [])
     = (Rejected (Error invalidRecordTypeMessage), w').
Proof.
  intros e w'.
  assert (Mock.refresh (Mock.failing "invalid_record_type") (Mock.fresh [])
          = (Rejected e, w')) as Hthrow by (by vm_compute).
  assert (nullish e = false) as He by reflexivity.
  split; [done|].
  destruct (retrieveAllMetadata_translates Mock.sqlite "RecordType"
              "PageLayoutSection" "PageLayoutItem" "PicklistValue"
              "Localization" "Survey__c" "@FieldType"
              (fun r : object => get r "recordTypeId")
              (fun l : object => to_string (get l "id"))
              (ret [Mock.recordType]) (Mock.failing "invalid_record_type")
              (fun _ => ret tt) (fun l => ret (Mock.picklists l))
              (ret tt) (fun _ _ w => w)
              (Mock.fresh []) w' e Hthrow He)
    as (code & Hcode & Hinvalid & _).
  apply Hinvalid. by injection Hcode as <-.
Defined.

(** The layout of the cached rows [Mock.sectionRows] and [Mock.itemRows]. *)
Example buildLayoutDetail_two_sections :
  (Describe.buildLayoutDetail Mock.sqlite "PageLayoutSection" "PageLayoutItem"
     "L1"
     (Mock.fresh [Database.Success (Mock.rows Mock.sectionRows);
                  Database.Success (Mock.rows Mock.itemRows)])).1
  = Resolved
      {| sections :=
           [ {| id := Str "s1"; title := Str "Household";
                data :=
                  [ {| name := Str "Name"; label := Str "Full name";
                       type := Str "string"; required := true |};
                    {| name := Str "Crop__c"; label := Str "Crop";
                       type := Str "picklist"; required := false |} ] |};
             {| id := Str "s2"; title := Str "Notes"; data := [] |} ] |}.
Proof. by vm_compute. Qed.

Lemma buildLayoutDetail_sections_witness :
  let w :=
    Mock.fresh [Database.Success (Mock.rows Mock.sectionRows);
                Database.Success (Mock.rows Mock.itemRows)] in
  let w1 :=
    {| Mock.script := [Database.Success (Mock.rows Mock.itemRows)];
       Mock.log :=
         ["select * from PageLayoutSection where layoutId='L1'"] |} in
  let w2 :=
    {| Mock.script := [];
       Mock.log :=
         ["select * from PageLayoutSection where layoutId='L1'";
          "select * from PageLayoutItem where sectionId in ('s1','s2')"] |} in
  (Mock.sqlite "select * from PageLayoutSection where layoutId='L1'" w
   = (Database.Success (Mock.rows Mock.sectionRows), w1)
   /\ Mock.sqlite "select * from PageLayoutItem where sectionId in ('s1','s2')"
        w1
      = (Database.Success (Mock.rows Mock.itemRows), w2))
  /\ Describe.buildLayoutDetail Mock.sqlite "PageLayoutSection"
       "PageLayoutItem" "L1" w
     = (Resolved
          {| sections :=
               [ {| id := Str "s1"; title := Str "Household";
                    data :=
                      [ {| name := Str "Name"; label := Str "Full name";
                           type := Str "string"; required := true |};
                        {| name := Str "Crop__c"; label := Str "Crop";
                           type := Str "picklist"; required := false |} ] |};
                 {| id := Str "s2"; title := Str "Notes"; data := [] |} ] |},
        w2).
Proof.
  intros w w1 w2.
  assert (Mock.sqlite "select * from PageLayoutSection where layoutId='L1'" w
          = (Database.Success (Mock.rows Mock.sectionRows), w1))
    as H1 by reflexivity.
  assert (Mock.sqlite
            "select * from PageLayoutItem where sectionId in ('s1','s2')" w1
          = (Database.Success (Mock.rows Mock.itemRows), w2))
    as H2 by reflexivity.
  assert (forall s, s ∈ Mock.sectionRows ->
            inherited (to_string (get s "id")) = false) as Hids.
  { intros s Hs.
    repeat (apply elem_of_cons in Hs as [->|Hs]; [reflexivity|]).
    by apply elem_of_nil in Hs. }
  assert (forall item, item ∈ Mock.itemRows ->
            inherited (to_string (get item "sectionId")) = false) as Hsids.
  { intros item Hitem.
    repeat (apply elem_of_cons in Hitem as [->|Hitem]; [reflexivity|]).
    by apply elem_of_nil in Hitem. }
  split; [done|].
  destruct (buildLayoutDetail_sections Mock.sqlite "PageLayoutSection"
              "PageLayoutItem" "L1" w w1 w2 (Mock.rows Mock.sectionRows)
              (Mock.rows Mock.itemRows) H1 H2 Hids Hsids)
    as ([entries] & Hrun & Hentries & _).
  cbn [sections] in Hentries. rewrite Hrun, Hentries. reflexivity.
Defined.

End DescribeFacts.

(** ** The Sync Reconciler *)

Module SyncFacts.
Import Sync.

Lemma markSynced_ids (localId : Z) (id : string) (store : list Survey) :
  _localId <$> markSynced localId id store = _localId <$> store.
Proof.
  unfold markSynced. rewrite <- list_fmap_compose.
  apply list_fmap_ext. intros _ row _. simpl. by case_decide.
Qed.

Lemma markSynced_other (localId : Z) (id : string) (store : list Survey)
    (row : Survey) :
  row ∈ store -> _localId row <> localId -> row ∈ markSynced localId id store.
Proof.
  intros Hin Hne. apply list_elem_of_fmap. exists row.
  by rewrite decide_False.
Qed.

Lemma markSynced_row (localId : Z) (id : string) (store : list Survey)
    (row : Survey) :
  row ∈ store -> _localId row = localId ->
  {| _localId := _localId row; _syncStatus := SYNCED; Id := Some id;
     fields := fields row |} ∈ markSynced localId id store.
Proof.
  intros Hin Heq. apply list_elem_of_fmap. exists row.
  by rewrite decide_True.
Qed.

Lemma unique_by_id (store : list Survey) (x y : Survey) :
  NoDup (_localId <$> store) -> x ∈ store -> y ∈ store ->
  _localId x = _localId y -> x = y.
Proof.
  induction store as [|row store IH]; csimpl; intros Hnd Hx Hy Heq.
  - by apply elem_of_nil in Hx.
  - apply NoDup_cons in Hnd as [Hrow Hnd].
    apply elem_of_cons in Hx as [->|Hx]; apply elem_of_cons in Hy as [->|Hy].
    + done.
    + exfalso. apply Hrow. rewrite Heq. by apply list_elem_of_fmap_2.
    + exfalso. apply Hrow. rewrite <- Heq. by apply list_elem_of_fmap_2.
    + by apply IH.
Qed.

Section ReconcilerFacts.
Context {Remote : Type} (createOrUpdate : Survey -> Remote -> pushed * Remote).

Abbreviation sync := (syncLocalSurveys createOrUpdate).
Abbreviation pushes := (answers createOrUpdate).

(** Runs the reconciler one record further in the goal. *)
Ltac step record remote rest :=
  cbn [syncLocalSurveys answers];
  destruct (createOrUpdate record remote) as [[id status|e] remote'];
  match goal with
  | |- context [syncLocalSurveys createOrUpdate rest ?store remote'] =>
      destruct (syncLocalSurveys createOrUpdate rest store remote')
        as [[report store'] remote''] eqn:Hrest
  end;
  cbn [fst snd succeeded failed].

Lemma pushes_length (records : list Survey) (remote : Remote) :
  length (pushes records remote) = length records.
Proof.
  revert remote. induction records as [|record rest IH]; intros remote.
  - done.
  - cbn [answers]. destruct (createOrUpdate record remote) as [answer remote'].
    cbn [length]. by rewrite IH.
Qed.

Lemma sync_counts (records store : list Survey) (remote : Remote) :
  succeeded (sync records store remote).1.1
  = length (filter (fun answer => accepted answer) (pushes records remote))
  /\ failed (sync records store remote).1.1
     = length (filter (fun answer => ~ accepted answer)
                      (pushes records remote)).
Proof.
  revert store remote.
  induction records as [|record rest IH]; intros store remote; [done|].
  step record remote rest.
  - destruct (IH (markSynced (_localId record) id store) remote') as [Hs Hf].
    rewrite Hrest in Hs, Hf. cbn [fst snd] in Hs, Hf.
    rewrite filter_cons_True, filter_cons_False by (simpl; tauto).
    cbn [length]. by rewrite Hs, Hf.
  - destruct (IH store remote') as [Hs Hf].
    rewrite Hrest in Hs, Hf. cbn [fst snd] in Hs, Hf.
    rewrite filter_cons_False, filter_cons_True by (simpl; tauto).
    cbn [length]. by rewrite Hs, Hf.
Qed.

Lemma sync_ids (records store : list Survey) (remote : Remote) :
  _localId <$> (sync records store remote).1.2 = _localId <$> store.
Proof.
  revert store remote.
  induction records as [|record rest IH]; intros store remote; [done|].
  step record remote rest.
  - specialize (IH (markSynced (_localId record) id store) remote').
    rewrite Hrest in IH. cbn [fst snd] in IH.
    by rewrite IH, markSynced_ids.
  - specialize (IH store remote'). by rewrite Hrest in IH.
Qed.

(** A row that is not among the records pushed is not touched. *)
Lemma sync_keeps (records store : list Survey) (remote : Remote)
    (row : Survey) :
  row ∈ store -> _localId row ∉ _localId <$> records ->
  row ∈ (sync records store remote).1.2.
Proof.
  revert store remote.
  induction records as [|record rest IH]; intros store remote Hin Hid;
    [done|].
  csimpl in Hid. apply not_elem_of_cons in Hid as [Hne Hid].
  step record remote rest.
  - specialize (IH (markSynced (_localId record) id store) remote').
    rewrite Hrest in IH. apply IH; [|done]. by apply markSynced_other.
  - specialize (IH store remote'). rewrite Hrest in IH. by apply IH.
Qed.

Lemma sync_pointwise (records store : list Survey) (remote : Remote)
    (i : nat) (record : Survey) (answer : pushed) :
  NoDup (_localId <$> records) ->
  (forall r, r ∈ records -> r ∈ store) ->
  records !! i = Some record -> pushes records remote !! i = Some answer ->
  match answer with
  | RemoteError _ => record ∈ (sync records store remote).1.2
  | Accepted id _ =>
      {| _localId := _localId record; _syncStatus := SYNCED; Id := Some id;
         fields := fields record |} ∈ (sync records store remote).1.2
  end.
Proof.
  revert store remote i.
  induction records as [|first rest IH]; intros store remote i Hnd Hsub Hi Ha;
    [done|].
  csimpl in Hnd. apply NoDup_cons in Hnd as [Hfirst Hnd].
  assert (first ∈ store) as Hin by (apply Hsub; left).
  revert Ha. step first remote rest; intros Ha.
  - pose proof (sync_keeps rest (markSynced (_localId first) id store) remote')
      as Hkeep.
    specialize (IH (markSynced (_localId first) id store) remote').
    rewrite Hrest in IH, Hkeep. cbn [fst snd] in IH, Hkeep.
    destruct i as [|i]; simplify_eq/=.
    + apply Hkeep; [by apply markSynced_row|done].
    + apply (IH i); [done| |done..].
      intros r Hr. apply markSynced_other; [apply Hsub; by right|].
      intros Heq. apply Hfirst. rewrite <- Heq. by apply list_elem_of_fmap_2.
  - pose proof (sync_keeps rest store remote') as Hkeep.
    specialize (IH store remote').
    rewrite Hrest in IH, Hkeep. cbn [fst snd] in IH, Hkeep.
    destruct i as [|i]; simplify_eq/=.
    + by apply Hkeep.
    + apply (IH i); [done| |done..]. intros r Hr. apply Hsub. by right.
Qed.

(** C4: the reconciler calls the remote client once for every record, in
    order, whatever the earlier answers were; it reports how many calls
    succeeded and how many failed; the store keeps its rows (the same
    identifiers, in the same order); the row of a record whose call failed
    is as it was, [UNSYNCED], and the row of a record whose call succeeded
    is [SYNCED] and holds the remote identifier. *)
Theorem syncLocalSurveys_isolates_failures
    (records store : list Survey) (remote : Remote) :
  NoDup (_localId <$> store) ->
  NoDup (_localId <$> records) ->
  (forall r, r ∈ records -> r ∈ store /\ _syncStatus r = UNSYNCED) ->
  let report := (sync records store remote).1.1 in
  let store' := (sync records store remote).1.2 in
  let pushed := pushes records remote in
  length pushed = length records
  /\ succeeded report = length (filter (fun a => accepted a) pushed)
  /\ failed report = length (filter (fun a => ~ accepted a) pushed)
  /\ succeeded report + failed report = length records
  /\ _localId <$> store' = _localId <$> store
  /\ forall i record answer,
      records !! i = Some record -> pushed !! i = Some answer ->
      exists row,
        row ∈ store'
        /\ (forall row', row' ∈ store' -> _localId row' = _localId record ->
            row' = row)
        /\ match answer with
           | RemoteError _ => row = record /\ _syncStatus row = UNSYNCED
           | Accepted id _ =>
               _localId row = _localId record /\ _syncStatus row = SYNCED
               /\ Id row = Some id /\ fields row = fields record
           end.
Proof.
  intros Hstore Hrecords Hsub report store' pushed.
  destruct (sync_counts records store remote) as [Hs Hf].
  pose proof (sync_ids records store remote) as Hids.
  pose proof (pushes_length records remote) as Hlen.
  fold report in Hs, Hf. fold store' in Hids. fold pushed in Hs, Hf, Hlen.
  assert (NoDup (_localId <$> store')) as Hstore' by by rewrite Hids.
  split; [done|]. split; [done|]. split; [done|]. split; [|split; [done|]].
  - rewrite Hs, Hf, <- Hlen, <- length_app.
    apply Permutation_length, filter_app_complement.
  - intros i record answer Hi Ha.
    pose proof (sync_pointwise records store remote i record
                  answer Hrecords (fun r Hr => proj1 (Hsub r Hr)) Hi Ha)
      as Hrow.
    fold store' in Hrow.
    assert (record ∈ records) as Hin by by eapply list_elem_of_lookup_2.
    destruct answer as [id status|e].
    + eexists. split; [exact Hrow|]. split; [|done].
      intros row' Hrow' Heq. by apply (unique_by_id store').
    + exists record. split; [done|]. split; [|split; [done|by apply Hsub]].
      intros row' Hrow' Heq. by apply (unique_by_id store').
Qed.
End ReconcilerFacts.

(** The scenario of the specification: three unsynced records, the remote
    call of the second fails. *)
Example sync_three_records :
  syncLocalSurveys Mock.createOrUpdate
    [Mock.survey 1; Mock.survey 2; Mock.survey 3]
    [Mock.survey 1; Mock.survey 2; Mock.survey 3] [2%Z]
  = ({| succeeded := 2; failed := 1 |},
     [ {| _localId := 1; _syncStatus := SYNCED; Id := Some "a01";
          fields := [("Name", JS.Str "survey")] |};
       Mock.survey 2;
       {| _localId := 3; _syncStatus := SYNCED; Id := Some "a03";
          fields := [("Name", JS.Str "survey")] |} ],
     [2%Z]).
Proof. by vm_compute. Qed.

Lemma syncLocalSurveys_isolates_failures_witness :
  let records := [Mock.survey 1; Mock.survey 2; Mock.survey 3] in
  (NoDup (_localId <$> records)
   /\ forall r, r ∈ records -> r ∈ records /\ _syncStatus r = UNSYNCED)
  /\ succeeded (syncLocalSurveys Mock.createOrUpdate records records [2%Z]).1.1
     = 2
  /\ failed (syncLocalSurveys Mock.createOrUpdate records records [2%Z]).1.1
     = 1.
Proof.
  intros records.
  assert (NoDup (_localId <$> records)) as Hnd by Mock.evaluated.
  assert (forall r, r ∈ records -> r ∈ records /\ _syncStatus r = UNSYNCED)
    as Hsub.
  { intros r Hr. split; [done|].
    repeat (apply elem_of_cons in Hr as [->|Hr]; [done|]).
    by apply elem_of_nil in Hr. }
  split; [done|].
  destruct (syncLocalSurveys_isolates_failures Mock.createOrUpdate records
              records [2%Z] Hnd Hnd Hsub) as (_ & Hs & Hf & _).
  split; [exact Hs|exact Hf].
Defined.

End SyncFacts.

(** ** The other operations of the Local Store *)

Module DatabaseRestFacts.
Import JS Promise Database DatabaseRest JSFacts DatabaseFacts.

Lemma sqliteValue_scalar (v : JS.value) :
  truthy (sqliteValue v) = true
  /\ (typeof (sqliteValue v) = TNumber \/ typeof (sqliteValue v) = TString).
Proof.
  unfold sqliteValue. destruct (truthy v) eqn:Hv; cbn [negb]; [|by auto].
  destruct v as [| |[]|n| |s]; try done; cbn; auto.
Qed.

(** X1: the columns and the values of an insert line up: the object
    [convertObjectToSQLite] builds from a record has the keys of the
    record, in their order, which are the column names
    [getFieldTypeMappings] gives; each of its values is a number or a
    string and is truthy, so none prints as an empty element of the value
    list. *)
Theorem convertObjectToSQLite_columns (record : object) :
  wf record ->
  keys (convertObjectToSQLite record) = keys record
  /\ name <$> getFieldTypeMappings record
     = keys (convertObjectToSQLite record)
  /\ length (convertObjectToSQLite record).*2 = length record
  /\ Forall (fun v => truthy v = true
                      /\ (typeof v = TNumber \/ typeof v = TString)
                      /\ elem_to_string v = to_string v)
            (convertObjectToSQLite record).*2.
Proof.
  intros Hwf. rewrite convertObjectToSQLite_keys by done.
  split; [done|]. split; [|split].
  - unfold getFieldTypeMappings, keys. rewrite <- list_fmap_compose.
    apply list_fmap_ext. intros _ [k v] _. simpl. by case_decide.
  - by rewrite length_fmap, convertObjectToSQLite_wf, length_fmap.
  - rewrite convertObjectToSQLite_wf, <- list_fmap_compose by done.
    apply Forall_fmap, Forall_forall. intros [k v] _. simpl.
    destruct (sqliteValue_scalar v) as [Ht Hty].
    split; [done|]. split; [done|].
    by destruct (sqliteValue v).
Qed.

(** X2: escaping loses nothing: two texts with the same escaped form are the
    same text. *)
Theorem replace_quotes_inj (s1 s2 : string) :
  replace_quotes s1 = replace_quotes s2 -> s1 = s2.
Proof.
  revert s2. induction s1 as [|c1 r1 IH]; intros [|c2 r2]; simpl.
  - done.
  - by destruct (Ascii.eqb c2 "'").
  - by destruct (Ascii.eqb c1 "'").
  - destruct (Ascii.eqb_spec c1 "'") as [->|H1];
      destruct (Ascii.eqb_spec c2 "'") as [->|H2]; intros Heq.
    + f_equal. apply IH. by simplify_eq.
    + by simplify_eq.
    + by simplify_eq.
    + injection Heq as -> Heq. f_equal. by apply IH.
Qed.

(** X3: the escaped form of a text has twice its single quotes and no other
    character more: every single quote of it is one of a pair. *)
Theorem replace_quotes_counts (s : string) :
  countQuotes (replace_quotes s) = 2 * countQuotes s
  /\ String.length (replace_quotes s) = String.length s + countQuotes s.
Proof.
  split.
  - induction s as [|c r IH]; simpl; [done|].
    destruct (Ascii.eqb_spec c "'") as [->|Hc]; simpl.
    + rewrite IH. lia.
    + by rewrite (proj2 (Ascii.eqb_neq _ _) Hc).
  - induction s as [|c r IH]; simpl; [done|].
    destruct (Ascii.eqb c "'"); simpl; rewrite IH; lia.
Qed.

Section RestFacts.
Context {World : Type} (sqlite : string -> World -> reply * World).

(** X4: when the table of a non-empty batch cannot be prepared, the promise of
    [saveRecords] is never settled, and the insert is not run: the world is
    the one the create statement left. *)
Theorem saveRecords_never_settles
    (tableName : string) (records : list object) (primaryKey : JS.value)
    (w w1 : World) (r : reply) (e : any) :
  records <> [] ->
  sqlite (createStatement tableName
            (getFieldTypeMappings (default [] (head records))) primaryKey) w
  = (r, w1) ->
  errorOf r = Some e ->
  saveRecords sqlite tableName records primaryKey w = (Pending, w1).
Proof.
  intros Hne Hcreate He. unfold saveRecords.
  rewrite decide_False by (by destruct records).
  unfold prepareTable. rewrite resolveWith_id.
  unfold executeTransaction at 1. rewrite Hcreate.
  by destruct r.
Qed.

(** X5: once the table of a non-empty batch is prepared, [saveRecords] runs
    the one insert statement of the batch and settles as the engine answers
    it: it resolves to the result set, or rejects with the error. *)
Theorem saveRecords_inserts
    (tableName : string) (records : list object) (primaryKey : JS.value)
    (w w1 : World) (created : SQLResultSet) :
  records <> [] ->
  sqlite (createStatement tableName
            (getFieldTypeMappings (default [] (head records))) primaryKey) w
  = (Success created, w1) ->
  saveRecords sqlite tableName records primaryKey w
  = match sqlite (insertStatement tableName records) w1 with
    | (Success result, w2) => (Resolved (Inserted result), w2)
    | (StatementError error, w2) | (Thrown error, w2) => (Rejected error, w2)
    end.
Proof.
  intros Hne Hcreate. unfold saveRecords.
  rewrite decide_False by (by destruct records).
  unfold prepareTable. rewrite resolveWith_id.
  unfold executeTransaction at 1. rewrite Hcreate.
  unfold resolveWith, executeTransaction.
  by destruct (sqlite (insertStatement tableName records) w1) as [[] ?].
Qed.

Lemma getRecords_settles
    (tableName : string) (whereClause : JS.value) (w : World) :
  truthy whereClause = true ->
  getRecords sqlite tableName whereClause w
  = match sqlite ("select * from " +:+ tableName +:+ " "
                  +:+ to_string whereClause) w with
    | (Success result, w') => (Resolved (rows_array result), w')
    | (StatementError error, w') | (Thrown error, w') => (Rejected error, w')
    end.
Proof.
  intros Htruthy. unfold getRecords, resolveWith, executeTransaction.
  rewrite Htruthy. by destruct (sqlite _ w) as [[] ?].
Qed.

(** X6: with a filter, [getRecords] settles as the engine answers its select
    statement: it resolves to the rows, or rejects with the error. *)
Theorem getRecords_with_filter
    (tableName : string) (whereClause : JS.value) (w : World) :
  truthy whereClause = true ->
  getRecords sqlite tableName whereClause w
  = match sqlite ("select * from " +:+ tableName +:+ " "
                  +:+ to_string whereClause) w with
    | (Success result, w') => (Resolved (rows_array result), w')
    | (StatementError error, w') | (Thrown error, w') => (Rejected error, w')
    end.
Proof. apply getRecords_settles. Qed.

(** X7: [getRecords] runs its select statement whatever the filter is, also
    when it rejects for the missing filter: the world it leaves is the one
    the engine leaves after that statement, in which the missing filter
    reads [undefined], [null] or nothing. *)
Theorem getRecords_always_runs
    (tableName : string) (whereClause : JS.value) (w : World) :
  (getRecords sqlite tableName whereClause w).2
  = (sqlite ("select * from " +:+ tableName +:+ " "
             +:+ to_string whereClause) w).2.
Proof.
  unfold getRecords, resolveWith, executeTransaction.
  by destruct (sqlite _ w) as [[] ?].
Qed.

Lemma deleteNulls_idempotent (o : object) :
  wf o -> deleteNulls (deleteNulls o) = deleteNulls o.
Proof.
  intros Hwf. rewrite (deleteNulls_filter (deleteNulls o))
    by by apply deleteNulls_wf.
  rewrite deleteNulls_filter by done.
  rewrite list_filter_filter. apply list_filter_iff. tauto.
Qed.

Lemma updateRecord_run
    (tableName : string) (record : ref) (whereClause : string)
    (h : gmap ref object) (w : World) (o : object) :
  h !! record = Some o ->
  updateRecord sqlite tableName record whereClause h w
  = let '(p, w') :=
      executeTransaction sqlite
        (updateStatement tableName (deleteNulls o) whereClause) w in
    (p, <[record := deleteNulls o]> h, w').
Proof.
  intros Hh. unfold updateRecord. rewrite Hh, lookup_insert_eq.
  cbn [default from_option id]. by rewrite resolveWith_id.
Qed.

(** X8: [updateRecord] a second time with the same object: the object, which
    the first call changed, is not changed again, and the same statement
    is run a second time. *)
Theorem updateRecord_twice
    (tableName : string) (record : ref) (whereClause : string)
    (h : gmap ref object) (w : World) (o : object) :
  h !! record = Some o -> wf o ->
  let first := updateRecord sqlite tableName record whereClause h w in
  let second :=
    updateRecord sqlite tableName record whereClause first.1.2 first.2 in
  let statement := updateStatement tableName (deleteNulls o) whereClause in
  (first.1.1, first.2) = executeTransaction sqlite statement w
  /\ second.1.2 = first.1.2
  /\ (second.1.1, second.2) = executeTransaction sqlite statement first.2.
Proof.
  intros Hh Hwf first second statement. subst first second statement.
  rewrite (updateRecord_run _ _ _ _ _ _ Hh).
  destruct (executeTransaction sqlite _ w) as [p1 w1] eqn:H1. cbn [fst snd].
  split; [done|].
  rewrite (updateRecord_run _ _ _ _ _ (deleteNulls o))
    by apply lookup_insert_eq.
  rewrite deleteNulls_idempotent by done.
  destruct (executeTransaction sqlite _ w1) as [p2 w2] eqn:H2. cbn [fst snd].
  split; [|done]. by rewrite insert_insert_eq.
Qed.

(** X9: a record that has only [null] fields, or no field: [updateRecord]
    empties the object and still runs an update statement, whose [set] list
    is empty. *)
Theorem updateRecord_only_nulls
    (tableName : string) (record : ref) (whereClause : string)
    (h : gmap ref object) (w : World) (o : object) :
  h !! record = Some o ->
  (forall k v, (k, v) ∈ o -> v = Null) ->
  let r := updateRecord sqlite tableName record whereClause h w in
  r.1.2 !! record = Some []
  /\ (r.1.1, r.2)
     = executeTransaction sqlite
         ("update " +:+ tableName +:+ " set " +:+ EmptyString +:+ " "
          +:+ whereClause) w.
Proof.
  intros Hh Hnull r. subst r.
  assert (deleteNulls o = []) as Hempty.
  { unfold deleteNulls. rewrite foldl_delete_nulls.
    assert (forall l : object,
              (forall kv, kv ∈ l -> kv ∈ o) ->
              filter (fun kv => kv.1 ∉ (filter (fun kv => kv.2 = Null) o).*1)
                     l = []) as Hall; [|by apply Hall].
    induction l as [|[k v] l IH]; intros Hsub; [done|].
    rewrite filter_cons_False; [apply IH; intros; apply Hsub; by right|].
    simpl. intros Hk. apply Hk. apply list_elem_of_fmap. exists (k, v).
    split; [done|]. apply list_elem_of_filter. split.
    - apply (Hnull k v), Hsub. left.
    - apply Hsub. left. }
  rewrite (updateRecord_run _ _ _ _ _ _ Hh), Hempty.
  destruct (executeTransaction sqlite _ w) as [p w'] eqn:Hrun.
  cbn [fst snd]. by rewrite lookup_insert_eq.
Qed.

Lemma escapedValue_text (v : JS.value) :
  truthy v = false \/ typeof v = TString ->
  escapedValue v
  = Some (if truthy v then replace_quotes (to_string v) else EmptyString).
Proof.
  unfold escapedValue. intros [Hv|Hv].
  - by rewrite Hv.
  - destruct v; try done. by destruct (truthy _).
Qed.

(** X10: when every value is a string or is falsy, [updateFieldValues] runs one
    update statement, which sets each field, in order, to the text of its
    value between single quotes with each single quote of the text doubled,
    and to the empty text when the value is falsy; it settles as the engine
    answers. *)
Theorem updateFieldValues_statement
    (tableName : string) (fieldValues : list FieldValue)
    (whereClause : string) (w : World) :
  (forall fv, fv ∈ fieldValues ->
              truthy (value fv) = false \/ typeof (value fv) = TString) ->
  updateFieldValues sqlite tableName fieldValues whereClause w
  = executeTransaction sqlite
      ("update " +:+ tableName +:+ " set "
       +:+ join ", "
             ((fun fv =>
                 field fv +:+ " = '"
                 +:+ (if truthy (value fv)
                      then replace_quotes (to_string (value fv))
                      else EmptyString)
                 +:+ "'") <$> fieldValues)
       +:+ " " +:+ whereClause) w.
Proof.
  intros Htext. unfold updateFieldValues, fieldValuePairString.
  rewrite (mapM_Some_2 _ fieldValues
             ((fun fv =>
                 field fv +:+ " = '"
                 +:+ (if truthy (value fv)
                      then replace_quotes (to_string (value fv))
                      else EmptyString)
                 +:+ "'") <$> fieldValues)).
  - cbn [mbind option_bind]. by rewrite resolveWith_id.
  - apply Forall2_fmap_r, Forall_Forall2_diag, Forall_forall.
    intros fv Hfv. by rewrite escapedValue_text by by apply Htext.
Qed.

(** X11: when some value is truthy and not a string (a number, [true]),
    [updateFieldValues] rejects with a [TypeError] and runs no statement:
    the world is as it was. *)
Theorem updateFieldValues_not_text
    (tableName : string) (fieldValues : list FieldValue)
    (whereClause : string) (w : World) (fv : FieldValue) :
  fv ∈ fieldValues -> truthy (value fv) = true ->
  typeof (value fv) <> TString ->
  exists message,
    updateFieldValues sqlite tableName fieldValues whereClause w
    = (Rejected (TypeError message), w).
Proof.
  intros Hin Htruthy Hty. eexists.
  unfold updateFieldValues, fieldValuePairString.
  rewrite (mapM_None_2 _ fieldValues); [done|].
  apply Exists_exists. exists fv. split; [done|].
  unfold escapedValue. rewrite Htruthy. by destruct (value fv).
Qed.

Lemma clearDatabase_cons (table : string) (tables : list string) (w : World) :
  clearDatabase sqlite (table :: tables) w
  = match sqlite ("DROP TABLE IF EXISTS " +:+ table +:+ ";") w with
    | (Success _, w') => clearDatabase sqlite tables w'
    | (StatementError error, w') | (Thrown error, w') => (Rejected error, w')
    end.
Proof.
  unfold clearDatabase. cbn [for_of]. unfold await at 1 2, clearTable.
  rewrite resolveWith_id. unfold executeTransaction.
  by destruct (sqlite _ w) as [[] ?].
Qed.

Lemma clearDatabase_append (tables1 tables2 : list string) (w : World) :
  clearDatabase sqlite (tables1 ++ tables2) w
  = match clearDatabase sqlite tables1 w with
    | (Resolved _, w1) => clearDatabase sqlite tables2 w1
    | r => r
    end.
Proof.
  revert w. induction tables1 as [|table tables1 IH]; intros w; [done|].
  rewrite <- app_comm_cons, !clearDatabase_cons.
  destruct (sqlite _ w) as [[] ?]; [apply IH|done..].
Qed.

(** X12: clearing the tables of two lists one after the other is clearing the
    first list and then, if that resolved, the second, from the world the
    first left. *)
Theorem clearDatabase_app (tables1 tables2 : list string) (w : World) :
  clearDatabase sqlite (tables1 ++ tables2) w
  = match clearDatabase sqlite tables1 w with
    | (Resolved _, w1) => clearDatabase sqlite tables2 w1
    | r => r
    end.
Proof. apply clearDatabase_append. Qed.

(** X13: [clearDatabase] stops at the first table that cannot be dropped: it
    rejects with the error of that drop, and the tables after it are left
    as they were. *)
Theorem clearDatabase_stops
    (dropped : list string) (table : string) (kept : list string)
    (w w1 w2 : World) (r : reply) (e : any) :
  clearDatabase sqlite dropped w = (Resolved tt, w1) ->
  sqlite ("DROP TABLE IF EXISTS " +:+ table +:+ ";") w1 = (r, w2) ->
  errorOf r = Some e ->
  clearDatabase sqlite (dropped ++ table :: kept) w = (Rejected e, w2).
Proof.
  intros Hdropped Hdrop He.
  rewrite clearDatabase_append, Hdropped, clearDatabase_cons, Hdrop.
  destruct r; by simplify_eq/=.
Qed.

(** X14: the two ways to read a whole table agree on success: when
    [getAllRecords] resolves to rows, [getAllRecordsWithCallback] hands
    those rows to the callback and resolves to [true].  When the statement
    fails both reject with its error and the callback is not called; when
    the call of the engine throws, [getAllRecords] rejects and the promise
    of [getAllRecordsWithCallback] is never settled. *)
Theorem getAllRecordsWithCallback_agrees
    (tableName : string) (onSuccess : list object -> World -> World)
    (w : World) :
  let plain := getAllRecords sqlite tableName w in
  let called := getAllRecordsWithCallback sqlite tableName onSuccess w in
  match sqlite ("select * from " +:+ tableName) w with
  | (Success result, w') =>
      plain = (Resolved (rows_array result), w')
      /\ called = (Resolved true, onSuccess (rows_array result) w')
  | (StatementError error, w') =>
      plain = (Rejected error, w') /\ called = (Rejected error, w')
  | (Thrown error, w') =>
      plain = (Rejected error, w') /\ called = (Pending, w')
  end.
Proof.
  intros plain called. subst plain called.
  unfold getAllRecords, getAllRecordsWithCallback, transactionWithCallback,
    resolveWith, executeTransaction.
  by destruct (sqlite _ w) as [[] ?].
Qed.

(** X15: without a statement, [getRecordsWithCallback] rejects, and yet it runs
    the empty statement: if the engine accepts it, the callback is called
    with its rows. *)
Theorem getRecordsWithCallback_no_statement
    (onSuccess : list object -> World -> World) (w : World) :
  (getRecordsWithCallback sqlite EmptyString onSuccess w).1
  = Rejected NoStatement
  /\ (getRecordsWithCallback sqlite EmptyString onSuccess w).2
     = match sqlite EmptyString w with
       | (Success result, w') => onSuccess (rows_array result) w'
       | (_, w') => w'
       end.
Proof.
  unfold getRecordsWithCallback, transactionWithCallback. cbn.
  by destruct (sqlite _ w) as [[] ?].
Qed.
End RestFacts.

End DatabaseRestFacts.

(** ** More on the Layout Assembler and the Metadata Cache *)

Module DescribeRestFacts.
Import JS Promise Describe DescribeFacts.

(** One item, among sections with distinct keys one of which is its
    own, goes to exactly one section. *)
Lemma concat_itemsOf_cons (sectionKeys : list string) (item : object)
    (items : list object) :
  NoDup sectionKeys ->
  to_string (get item "sectionId") ∈ sectionKeys ->
  concat ((fun key => itemsOf key (item :: items)) <$> sectionKeys)
  ≡ₚ item :: concat ((fun key => itemsOf key items) <$> sectionKeys).
Proof.
  induction sectionKeys as [|key sectionKeys IH]; intros Hnd Hin.
  - by apply elem_of_nil in Hin.
  - apply NoDup_cons in Hnd as [Hkey Hnd]. csimpl.
    unfold itemsOf at 1. rewrite filter_cons. fold (itemsOf key items).
    case_decide as Heq.
    + simpl. f_equiv. f_equiv.
      assert (forall keys' : list string,
                to_string (get item "sectionId") ∉ keys' ->
                (fun key => itemsOf key (item :: items)) <$> keys'
                = (fun key => itemsOf key items) <$> keys') as Hskip.
      { intros keys' Hnot. apply list_fmap_ext. intros i k Hk.
        unfold itemsOf. rewrite filter_cons_False; [done|].
        intros Hk'. apply Hnot. rewrite Hk'.
        by eapply list_elem_of_lookup_2. }
      rewrite Hskip; [done|]. by rewrite Heq.
    + apply elem_of_cons in Hin as [Hin|Hin]; [done|].
      rewrite IH by done. by rewrite Permutation_middle.
Qed.

Lemma concat_itemsOf_nil (sectionKeys : list string) :
  concat ((fun key => itemsOf key []) <$> sectionKeys) = [].
Proof. by induction sectionKeys. Qed.

(** X16: when the section rows have distinct ids, none of them the name
    of a property every object inherits, and every item row belongs to one
    of them, the layout is built and holds every item once: the [data] of
    its sections, taken together, are the descriptors of the item rows,
    none lost and none twice. *)
Theorem assemble_every_item_once (sections items : list object) :
  NoDup ((fun s => to_string (get s "id")) <$> sections) ->
  (forall item, item ∈ items ->
     to_string (get item "sectionId")
     ∈ (fun s => to_string (get s "id")) <$> sections) ->
  (forall s, s ∈ sections -> inherited (to_string (get s "id")) = false) ->
  exists layout,
    assemble sections items = inr layout
    /\ concat (data <$> Describe.sections layout)
       ≡ₚ (fun item =>
             {| name := get item "fieldName";
                label := get item "fieldLabel";
                type := get item "fieldType";
                required := truthy (get item "required") |}) <$> items.
Proof.
  intros Hnd Hin Hids.
  assert (forall item, item ∈ items ->
            inherited (to_string (get item "sectionId")) = false) as Hsids.
  { intros item Hitem.
    destruct (proj1 (list_elem_of_fmap _ _ _) (Hin item Hitem))
      as (s & -> & Hs).
    by apply Hids. }
  eexists. split; [by apply assemble_sections|].
  cbn [Describe.sections]. rewrite <- list_fmap_compose.
  change (concat ((fun s => fieldOfItem
                     <$> itemsOf (to_string (get s "id")) items)
                  <$> sections)
          ≡ₚ (fun item =>
                {| name := get item "fieldName";
                   label := get item "fieldLabel";
                   type := get item "fieldType";
                   required := truthy (get item "required") |}) <$> items).
  assert (fieldOfItem <$> items
          = (fun item =>
               {| name := get item "fieldName";
                  label := get item "fieldLabel";
                  type := get item "fieldType";
                  required := truthy (get item "required") |}) <$> items)
    as <- by (apply list_fmap_ext; intros; apply fieldOfItem_fields).
  transitivity
    (fieldOfItem
     <$> concat ((fun key => itemsOf key items)
                 <$> ((fun s => to_string (get s "id")) <$> sections))).
  { rewrite <- list_fmap_compose. clear Hnd Hin Hids Hsids.
    induction sections as [|s sections IH]; [done|].
    csimpl. by rewrite fmap_app, <- IH. }
  f_equiv. clear Hids Hsids.
  set (sectionKeys := _ <$> sections) in *. clearbody sectionKeys.
  induction items as [|item items IH].
  - by rewrite concat_itemsOf_nil.
  - rewrite concat_itemsOf_cons; [|done|apply Hin; left].
    f_equiv. apply IH. intros ? ?. apply Hin. by right.
Qed.

Section MetadataRestFacts.
Context {World RecordType DescribeLayout : Type}.
Context (sqlite : string -> World -> Database.reply * World).
Context (RECORD_TYPE PAGE_LAYOUT_SECTION PAGE_LAYOUT_ITEM PICKLIST_VALUE
         LOCALIZATION SURVEY_OBJECT FIELD_TYPE : string).
Context (recordTypeId : RecordType -> value).
Context (layoutId : DescribeLayout -> string).
Context (storeRecordTypesWithCompactLayout : task World (list RecordType)).
Context (describeLayouts :
           string -> list value -> task World (list DescribeLayout)).
Context (storePageLayoutSections : DescribeLayout -> task World unit).
Context (storePageLayoutItems : DescribeLayout -> task World PageLayoutResult).
Context (storeLocalization : task World unit).
Context (storageSave : string -> object -> World -> World).

Abbreviation refresh :=
  (Describe.refresh sqlite RECORD_TYPE PAGE_LAYOUT_SECTION PAGE_LAYOUT_ITEM
     PICKLIST_VALUE LOCALIZATION SURVEY_OBJECT FIELD_TYPE recordTypeId
     layoutId storeRecordTypesWithCompactLayout describeLayouts
     storePageLayoutSections storePageLayoutItems storeLocalization
     storageSave).

Abbreviation retrieveAllMetadata :=
  (Describe.retrieveAllMetadata sqlite RECORD_TYPE PAGE_LAYOUT_SECTION
     PAGE_LAYOUT_ITEM PICKLIST_VALUE LOCALIZATION SURVEY_OBJECT FIELD_TYPE
     recordTypeId layoutId storeRecordTypesWithCompactLayout describeLayouts
     storePageLayoutSections storePageLayoutItems storeLocalization
     storageSave).

Abbreviation buildLayoutDetail :=
  (Describe.buildLayoutDetail sqlite PAGE_LAYOUT_SECTION PAGE_LAYOUT_ITEM).

(** X17: when the query of the sections fails, [buildLayoutDetail] rejects with
    its error and does not query the items: the world is the one the first
    statement left. *)
Theorem buildLayoutDetail_sections_fail
    (layout : string) (w w1 : World) (r : Database.reply) (e : any) :
  sqlite ("select * from " +:+ PAGE_LAYOUT_SECTION +:+ " "
          +:+ ("where layoutId='" +:+ layout +:+ "'")) w
  = (r, w1) ->
  DatabaseRest.errorOf r = Some e ->
  buildLayoutDetail layout w = (Rejected e, w1).
Proof.
  intros Hrun He. unfold Describe.buildLayoutDetail, await.
  rewrite DatabaseRestFacts.getRecords_settles by reflexivity.
  cbn [to_string]. rewrite Hrun. destruct r; by simplify_eq/=.
Qed.

(** X18: when the query of the items fails, after that of the sections,
    [buildLayoutDetail] rejects with its error. *)
Theorem buildLayoutDetail_items_fail
    (layout : string) (w w1 w2 : World)
    (sections : Database.SQLResultSet) (r : Database.reply) (e : any) :
  sqlite ("select * from " +:+ PAGE_LAYOUT_SECTION +:+ " "
          +:+ ("where layoutId='" +:+ layout +:+ "'")) w
  = (Database.Success sections, w1) ->
  sqlite ("select * from " +:+ PAGE_LAYOUT_ITEM +:+ " "
          +:+ ("where sectionId in ("
               +:+ join "," ((fun s => "'" +:+ to_string (get s "id") +:+ "'")
                             <$> Database.rows_array sections)
               +:+ ")")) w1
  = (r, w2) ->
  DatabaseRest.errorOf r = Some e ->
  buildLayoutDetail layout w = (Rejected e, w2).
Proof.
  intros Hsections Hitems He. unfold Describe.buildLayoutDetail, await.
  rewrite DatabaseRestFacts.getRecords_settles by reflexivity.
  cbn [to_string]. rewrite Hsections.
  rewrite DatabaseRestFacts.getRecords_settles by reflexivity.
  cbn [to_string]. rewrite <- list_fmap_compose.
  unfold compose. rewrite Hitems. destruct r; by simplify_eq/=.
Qed.

(** X30: when both queries succeed and the id of a section row is the
    name of a property every object inherits ([constructor], [toString],
    ...), [buildLayoutDetail] rejects with a [TypeError]: what the
    dictionary answers under that id is not the array of the items of the
    section. *)
Theorem buildLayoutDetail_inherited_id
    (layout : string) (w w1 w2 : World)
    (sections items : Database.SQLResultSet) (s : object) :
  sqlite ("select * from " +:+ PAGE_LAYOUT_SECTION +:+ " "
          +:+ ("where layoutId='" +:+ layout +:+ "'")) w
  = (Database.Success sections, w1) ->
  sqlite ("select * from " +:+ PAGE_LAYOUT_ITEM +:+ " "
          +:+ ("where sectionId in ("
               +:+ join "," ((fun s => "'" +:+ to_string (get s "id") +:+ "'")
                             <$> Database.rows_array sections)
               +:+ ")")) w1
  = (Database.Success items, w2) ->
  s ∈ Database.rows_array sections ->
  inherited (to_string (get s "id")) = true ->
  exists message,
    buildLayoutDetail layout w = (Rejected (TypeError message), w2).
Proof.
  intros Hsections Hitems Hs Hid. unfold Describe.buildLayoutDetail, await.
  rewrite DatabaseRestFacts.getRecords_settles by reflexivity.
  cbn [to_string]. rewrite Hsections.
  rewrite DatabaseRestFacts.getRecords_settles by reflexivity.
  cbn [to_string]. rewrite <- list_fmap_compose.
  unfold compose. rewrite Hitems. unfold assemble.
  destruct (groupBySectionId (Database.rows_array items)) as [d|] eqn:Hd;
    [|by eexists].
  rewrite mapM_None_2; [by eexists|].
  apply Exists_exists. exists s. split; [done|].
  unfold sectionOf, readProp.
  by rewrite (groupBySectionId_own _ _ _ Hd Hid), Hid.
Qed.

(** X19: a refresh is not rolled back: when the record types cannot be fetched,
    after their table was dropped, [retrieveAllMetadata] rejects with the
    translation of the error, and the world is the one the failed fetch
    left, in which the table is dropped; no later step is run. *)
Theorem retrieveAllMetadata_no_rollback
    (w w1 w2 : World) (dropped : Database.SQLResultSet) (e : any) :
  sqlite ("DROP TABLE IF EXISTS " +:+ RECORD_TYPE +:+ ";") w
  = (Database.Success dropped, w1) ->
  storeRecordTypesWithCompactLayout w1 = (Rejected e, w2) ->
  retrieveAllMetadata w = (Rejected (translate e), w2).
Proof.
  intros Hdrop Hfetch.
  unfold Describe.retrieveAllMetadata, try_catch, Describe.refresh.
  unfold await at 1 2, Database.clearTable at 1.
  rewrite DatabaseFacts.resolveWith_id.
  unfold Database.executeTransaction. by rewrite Hdrop, Hfetch.
Qed.

(** X20: when the table of the record types cannot be dropped, the refresh
    stops there: [retrieveAllMetadata] rejects with the translation of the
    storage error and the remote system is not called. *)
Theorem retrieveAllMetadata_storage_error
    (w w1 : World) (r : Database.reply) (e : any) :
  sqlite ("DROP TABLE IF EXISTS " +:+ RECORD_TYPE +:+ ";") w = (r, w1) ->
  DatabaseRest.errorOf r = Some e ->
  retrieveAllMetadata w = (Rejected (translate e), w1).
Proof.
  intros Hdrop He.
  unfold Describe.retrieveAllMetadata, try_catch, Describe.refresh.
  unfold await at 1, Database.clearTable at 1.
  rewrite DatabaseFacts.resolveWith_id.
  unfold Database.executeTransaction. rewrite Hdrop.
  destruct r; by simplify_eq/=.
Qed.

(** X21: when what was thrown is [null] or [undefined], the [catch] block
    itself throws: [retrieveAllMetadata] rejects with a [TypeError], not
    with one of its three messages. *)
Theorem retrieveAllMetadata_nullish (w w' : World) (e : any) :
  refresh w = (Rejected e, w') -> nullish e = true ->
  exists message,
    retrieveAllMetadata w = (Rejected (TypeError message), w')
    /\ forall m, TypeError message <> Error m.
Proof.
  intros Hthrow He. eexists. split.
  - unfold Describe.retrieveAllMetadata, try_catch. rewrite Hthrow.
    unfold throw, translate. by destruct e as [[]|].
  - done.
Qed.

(** [retrieveAllMetadata] is settled only as its steps are: it resolves
    exactly when the [try] block resolves, and is never settled when a step
    of the block is never settled. *)
Lemma retrieveAllMetadata_pending (w w' : World) :
  (refresh w = (Pending, w') <-> retrieveAllMetadata w = (Pending, w'))
  /\ (refresh w = (Resolved tt, w')
      <-> retrieveAllMetadata w = (Resolved tt, w')).
Proof.
  unfold Describe.retrieveAllMetadata, try_catch, throw.
  destruct (refresh w) as [[[]|e|] w0]; split; split; intros; by simplify_eq.
Qed.
End MetadataRestFacts.

End DescribeRestFacts.

(** ** The survey editor *)

Module SurveyEditorFacts.
Import JS SurveyEditor.

Section DefineProp.
Context {V : Type}.
Implicit Types (o : list (string * V)) (k : string) (v : V).

Lemma lookup_set_prop o k v k' :
  lookup_prop (set_prop o k v) k'
  = if decide (k = k') then Some v else lookup_prop o k'.
Proof.
  induction o as [|[k0 v0] o IH]; simpl.
  - by case_decide.
  - destruct (decide (k0 = k)) as [->|Hne]; simpl.
    + by repeat case_decide.
    + rewrite IH. repeat case_decide; congruence.
Qed.

Lemma set_prop_set_prop o k v1 v2 :
  set_prop (set_prop o k v1) k v2 = set_prop o k v2.
Proof.
  induction o as [|[k0 v0] o IH]; simpl.
  - by rewrite decide_True.
  - destruct (decide (k0 = k)) as [->|Hne]; simpl.
    + by rewrite decide_True.
    + by rewrite decide_False, IH.
Qed.

Lemma set_prop_present o k v :
  k ∈ o.*1 -> (set_prop o k v).*1 = o.*1.
Proof.
  induction o as [|[k0 v0] o IH]; csimpl; intros Hin.
  - by apply elem_of_nil in Hin.
  - destruct (decide (k0 = k)) as [->|Hne]; [done|]. csimpl. f_equal.
    apply IH. by apply elem_of_cons in Hin as [?|?].
Qed.

Lemma lookup_prop_is_None o k : lookup_prop o k = None <-> k ∉ o.*1.
Proof.
  split; [|apply JSFacts.lookup_prop_None].
  induction o as [|[k0 v0] o IH]; csimpl; intros Hk.
  - apply not_elem_of_nil.
  - destruct (decide (k0 = k)); [done|].
    apply not_elem_of_cons. split; [done|by apply IH].
Qed.

Lemma lookup_insertIndex o n k v k' :
  lookup_prop o k = None ->
  lookup_prop (insertIndex o n k v) k'
  = if decide (k = k') then Some v else lookup_prop o k'.
Proof.
  induction o as [|[k0 v0] o IH]; simpl; intros Hk; [done|].
  destruct (decide (k0 = k)) as [|Hne]; [done|].
  destruct (arrayIndex k0) as [n'|]; [destruct (n' <? n)%N|]; simpl;
    rewrite ?IH by done; repeat case_decide; congruence.
Qed.

Lemma set_prop_insertIndex o n k v1 v2 :
  lookup_prop o k = None ->
  set_prop (insertIndex o n k v1) k v2 = insertIndex o n k v2.
Proof.
  induction o as [|[k0 v0] o IH]; simpl; intros Hk.
  - by rewrite decide_True.
  - destruct (decide (k0 = k)) as [|Hne]; [done|].
    destruct (arrayIndex k0) as [n'|]; [destruct (n' <? n)%N|]; simpl;
      rewrite ?decide_True, ?decide_False, ?IH by done; done.
Qed.

Lemma set_prop_snoc o k v1 v2 :
  lookup_prop o k = None ->
  set_prop (o ++ [(k, v1)]) k v2 = (o ++ [(k, v2)])%list.
Proof.
  induction o as [|[k0 v0] o IH]; simpl; intros Hk.
  - by rewrite decide_True.
  - destruct (decide (k0 = k)) as [|Hne]; [done|]. by rewrite IH.
Qed.

(** Reading after [defineProp]: the key defined reads the new value, every
    other key what it read. *)
Lemma lookup_defineProp o k v k' :
  lookup_prop (defineProp o k v) k'
  = if decide (k = k') then Some v else lookup_prop o k'.
Proof.
  unfold defineProp. destruct (lookup_prop o k) eqn:Hk.
  - apply lookup_set_prop.
  - destruct (arrayIndex k); [by apply lookup_insertIndex|].
    rewrite <- JSFacts.set_prop_fresh by by apply lookup_prop_is_None.
    apply lookup_set_prop.
Qed.

Lemma defineProp_defineProp o k v1 v2 :
  defineProp (defineProp o k v1) k v2 = defineProp o k v2.
Proof.
  unfold defineProp at 1. rewrite lookup_defineProp, decide_True by done.
  unfold defineProp. destruct (lookup_prop o k) eqn:Hk.
  - apply set_prop_set_prop.
  - destruct (arrayIndex k).
    + by apply set_prop_insertIndex.
    + by apply set_prop_snoc.
Qed.

(** Where [insertIndex] puts the key. *)
Lemma insertIndex_keys o n k v :
  exists before after,
    o.*1 = (before ++ after)%list
    /\ (insertIndex o n k v).*1 = (before ++ k :: after)%list
    /\ Forall (fun k' => exists m, arrayIndex k' = Some m /\ (m < n)%N) before
    /\ match after with
       | [] => True
       | k' :: _ => forall m, arrayIndex k' = Some m -> (n <= m)%N
       end.
Proof.
  induction o as [|[k0 v0] o IH]; simpl.
  - by exists [], [].
  - destruct (arrayIndex k0) as [n'|] eqn:Hk0.
    + destruct (n' <? n)%N eqn:Hlt.
      * destruct IH as (before & after & Ho & Hins & Hbefore & Hafter).
        exists (k0 :: before), after. csimpl. rewrite Ho, Hins.
        repeat split; try done. constructor; [|done].
        exists n'. split; [done|]. by apply N.ltb_lt.
      * exists [], (k0 :: o.*1). repeat split; try done.
        intros m Hm. apply N.ltb_ge in Hlt. congruence.
    + exists [], (k0 :: o.*1). repeat split; try done.
      intros m Hm. congruence.
Qed.
End DefineProp.

Lemma surveyReducer_UPDATE
    (state : SurveyEditorState) (field : string) (v : JS.value) :
  surveyReducer state (UPDATE field v)
  = inl {| survey := defineProp (survey state) field v |}.
Proof. reflexivity. Qed.

(** X22: an update is read back: after [UPDATE] of a field, the survey holds the
    new value under that field and, under every other field, what it held. *)
Theorem surveyReducer_update_reads
    (state : SurveyEditorState) (field : string) (v : JS.value) :
  exists state',
    surveyReducer state (UPDATE field v) = inl state'
    /\ get (survey state') field = v
    /\ forall k, k <> field -> get (survey state') k = get (survey state) k.
Proof.
  eexists. split; [reflexivity|]. cbn [survey name value]. unfold get. split.
  - by rewrite lookup_defineProp, decide_True.
  - intros k Hk. by rewrite lookup_defineProp, decide_False.
Qed.

(** X23: an update keeps the keys of the survey distinct and in place: a
    field the survey has keeps its position; a new field that is not an
    array index goes last; a new field that is an array index goes after
    the leading array-index keys below it and before every other key. *)
Theorem surveyReducer_update_keys
    (state : SurveyEditorState) (field : string) (v : JS.value) :
  wf (survey state) ->
  exists state',
    surveyReducer state (UPDATE field v) = inl state'
    /\ wf (survey state')
    /\ (field ∈ keys (survey state) ->
        keys (survey state') = keys (survey state))
    /\ (field ∉ keys (survey state) -> arrayIndex field = None ->
        keys (survey state') = (keys (survey state) ++ [field])%list)
    /\ (forall n,
          field ∉ keys (survey state) -> arrayIndex field = Some n ->
          exists before after,
            keys (survey state) = (before ++ after)%list
            /\ keys (survey state') = (before ++ field :: after)%list
            /\ Forall (fun k => exists m, arrayIndex k = Some m /\ (m < n)%N)
                      before
            /\ match after with
               | [] => True
               | k :: _ => forall m, arrayIndex k = Some m -> (n <= m)%N
               end).
Proof.
  intros Hwf. eexists. split; [reflexivity|]. cbn [survey name value].
  set (o := survey state) in *.
  assert (field ∈ keys o -> keys (defineProp o field v) = keys o) as Hpresent.
  { intros Hin. unfold defineProp.
    destruct (lookup_prop o field) eqn:Hk; [by apply set_prop_present|].
    by apply lookup_prop_is_None in Hk. }
  assert (field ∉ keys o -> arrayIndex field = None ->
          keys (defineProp o field v) = (keys o ++ [field])%list) as Hlast.
  { intros Hnot Hidx. unfold defineProp, keys.
    rewrite (proj2 (lookup_prop_is_None o field) Hnot), Hidx.
    by rewrite fmap_app. }
  assert (forall n, field ∉ keys o -> arrayIndex field = Some n ->
            exists before after,
              keys o = (before ++ after)%list
              /\ keys (defineProp o field v) = (before ++ field :: after)%list
              /\ Forall (fun k => exists m, arrayIndex k = Some m /\ (m < n)%N)
                        before
              /\ match after with
                 | [] => True
                 | k :: _ => forall m, arrayIndex k = Some m -> (n <= m)%N
                 end) as Hindex.
  { intros n Hnot Hidx. unfold defineProp, keys.
    rewrite (proj2 (lookup_prop_is_None o field) Hnot), Hidx.
    apply insertIndex_keys. }
  split; [|done]. unfold wf in *.
  destruct (decide (field ∈ keys o)) as [Hin|Hnot]; [by rewrite Hpresent|].
  destruct (arrayIndex field) as [n|] eqn:Hidx.
  - destruct (Hindex n Hnot eq_refl) as (before & after & Ho & -> & _).
    rewrite <- Permutation_middle. apply NoDup_cons. by rewrite <- Ho.
  - rewrite Hlast by done. apply NoDup_app. split; [done|].
    split; [|apply NoDup_singleton].
    intros k Hk ->%list_elem_of_singleton. by apply Hnot.
Qed.

(** X24: updates compose: of two updates of one field the last wins, and two
    updates of different fields give, in either order, surveys that hold
    the same value under every field. *)
Theorem surveyReducer_updates_compose
    (state : SurveyEditorState) (f1 f2 : string) (v1 v2 : JS.value) :
  let update s f v :=
    match surveyReducer s (UPDATE f v) with
    | inl s' => s'
    | inr _ => s
    end in
  update (update state f1 v1) f1 v2 = update state f1 v2
  /\ forall k, f1 <> f2 ->
       get (survey (update (update state f1 v1) f2 v2)) k
       = get (survey (update (update state f2 v2) f1 v1)) k.
Proof.
  intros update. subst update. cbv beta. rewrite !surveyReducer_UPDATE.
  cbn [survey]. split.
  - by rewrite defineProp_defineProp.
  - intros k Hne. unfold get. rewrite !lookup_defineProp.
    repeat case_decide; congruence.
Qed.

(** X25: the reducer throws exactly on an action of another type than [UPDATE],
    [LOAD] and [CLEAR] and on an [UPDATE] without a field; [LOAD] and
    [CLEAR] do not look at the state: [CLEAR] gives the empty survey and
    [LOAD] the survey it is given, the empty one when it is given none. *)
Theorem surveyReducer_cases
    (state : SurveyEditorState) (action : SurveyEditorAction) :
  ((exists e, surveyReducer state action = inr e)
   <-> (type action = "UPDATE" /\ field action = None)
       \/ (type action <> "UPDATE" /\ type action <> "LOAD"
           /\ type action <> "CLEAR"))
  /\ surveyReducer state CLEAR = inl {| survey := [] |}
  /\ (forall detail, surveyReducer state (LOAD detail)
                     = inl {| survey := detail |})
  /\ surveyReducer state {| type := "LOAD"; field := None; detail := None |}
     = inl {| survey := [] |}.
Proof.
  split; [|done]. unfold surveyReducer.
  repeat case_decide; destruct (field action) eqn:Hfield;
    (split;
     [ intros [e He]; try discriminate He; intuition congruence
     | intros Hcase; try (by eexists); exfalso; intuition congruence ]).
Qed.

End SurveyEditorFacts.

(** ** The sync button *)

Module SyncButtonFacts.
Import JS Promise SyncButton.

Section ButtonFacts.
Context {World SurveyListItem Outcome : Type}.
Context (_syncStatus : SurveyListItem -> value) (SYNC_STATUS_UNSYNCED : value).
Context (setShowsSpinner : bool -> World -> World).
Context (refreshSurveys : task World unit).
Context (syncLocalSurveys : list SurveyListItem -> task World Outcome).

Abbreviation localSurveys :=
  (SyncButton.localSurveys _syncStatus SYNC_STATUS_UNSYNCED).
Abbreviation isSyncActive :=
  (SyncButton.isSyncActive _syncStatus SYNC_STATUS_UNSYNCED).
Abbreviation onPressOK :=
  (SyncButton.onPressOK _syncStatus SYNC_STATUS_UNSYNCED setShowsSpinner
     refreshSurveys syncLocalSurveys).
Abbreviation onPress :=
  (SyncButton.onPress _syncStatus SYNC_STATUS_UNSYNCED setShowsSpinner
     refreshSurveys syncLocalSurveys).

(** X26: the surveys handed to the reconciler are the unsynced surveys of the
    list, all of them and no other, in the order of the list; the button is
    active exactly when the network is connected and there is one. *)
Theorem localSurveys_unsynced
    (surveys : list SurveyListItem) (isNetworkConnected : bool) :
  (forall s, s ∈ localSurveys surveys
             <-> s ∈ surveys /\ _syncStatus s = SYNC_STATUS_UNSYNCED
                 /\ SYNC_STATUS_UNSYNCED <> NaN)
  /\ localSurveys surveys `sublist_of` surveys
  /\ (isSyncActive surveys isNetworkConnected = true
      <-> isNetworkConnected = true
          /\ exists s, s ∈ surveys
                       /\ strict_eq (_syncStatus s) SYNC_STATUS_UNSYNCED = true).
Proof.
  split; [|split].
  - intros s. unfold SyncButton.localSurveys. rewrite list_elem_of_filter.
    assert (strict_eq (_syncStatus s) SYNC_STATUS_UNSYNCED = true
            <-> _syncStatus s = SYNC_STATUS_UNSYNCED
                /\ SYNC_STATUS_UNSYNCED <> NaN) as ->; [|tauto].
    destruct (_syncStatus s), SYNC_STATUS_UNSYNCED; simpl;
      rewrite ?bool_decide_eq_true; intuition congruence.
  - apply sublist_filter.
  - unfold SyncButton.isSyncActive. rewrite andb_true_iff, Nat.ltb_lt.
    assert (0 < length (localSurveys surveys)
            <-> exists s, s ∈ surveys
                  /\ strict_eq (_syncStatus s) SYNC_STATUS_UNSYNCED = true)
      as ->; [|tauto].
    unfold SyncButton.localSurveys. split.
    + destruct (filter _ surveys) as [|s l] eqn:Hl; simpl; [lia|].
      intros _. exists s.
      assert (s ∈ filter
                (fun s => strict_eq (_syncStatus s) SYNC_STATUS_UNSYNCED
                          = true) surveys) as Hin by (rewrite Hl; left).
      by apply list_elem_of_filter in Hin as [? ?].
    + intros (s & Hs & Hu).
      assert (s ∈ filter
                (fun s => strict_eq (_syncStatus s) SYNC_STATUS_UNSYNCED
                          = true) surveys) as Hin
        by by apply list_elem_of_filter.
      destruct (filter _ surveys); [by apply elem_of_nil in Hin|simpl; lia].
Qed.

(** X27: pressing the button when it is not active, or not confirming with OK,
    starts nothing: neither the spinner nor the reconciler nor the refresh
    is called. *)
Theorem onPress_inactive
    (surveys : list SurveyListItem) (isNetworkConnected : bool)
    (a : answer) (w : World) :
  isSyncActive surveys isNetworkConnected = false \/ a <> OK ->
  onPress surveys isNetworkConnected a w = (Resolved tt, w).
Proof.
  intros [Hinactive|Ha]; unfold SyncButton.onPress.
  - by rewrite Hinactive.
  - by destruct (isSyncActive _ _), a.
Qed.

(** X28: when the reconciler rejects, the handler of OK rejects with its error:
    the surveys are not refreshed and the spinner, shown before the sync,
    is not hidden. *)
Theorem onPressOK_sync_fails
    (surveys : list SurveyListItem) (w w1 : World) (e : any) :
  syncLocalSurveys (localSurveys surveys) (setShowsSpinner true w)
  = (Rejected e, w1) ->
  onPressOK surveys w = (Rejected e, w1).
Proof.
  intros Hsync. unfold SyncButton.onPressOK, await. by rewrite Hsync.
Qed.

(** X29: when the reconciler and the refresh resolve, the handler of OK shows
    the spinner, syncs the unsynced surveys, refreshes the list, hides the
    spinner, in this order, and resolves. *)
Theorem onPressOK_resolves
    (surveys : list SurveyListItem) (w w1 w2 : World) (outcome : Outcome) :
  syncLocalSurveys (localSurveys surveys) (setShowsSpinner true w)
  = (Resolved outcome, w1) ->
  refreshSurveys w1 = (Resolved tt, w2) ->
  onPressOK surveys w = (Resolved tt, setShowsSpinner false w2).
Proof.
  intros Hsync Hrefresh. unfold SyncButton.onPressOK, await.
  by rewrite Hsync, Hrefresh.
Qed.
End ButtonFacts.

End SyncButtonFacts.

(** ** The other operations, on the test doubles *)

Module RestExamples.
Import JS Promise Database DatabaseRest Mock Samples.

Lemma convertObjectToSQLite_columns_witness :
  wf roundTrip
  /\ keys (convertObjectToSQLite roundTrip) = keys roundTrip.
Proof.
  assert (wf roundTrip) as Hwf by evaluated.
  split; [done|].
  apply (DatabaseRestFacts.convertObjectToSQLite_columns roundTrip Hwf).
Defined.

Lemma replace_quotes_inj_witness :
  replace_quotes "it's" = replace_quotes ("it" +:+ "'s")
  /\ "it's" = "it" +:+ "'s".
Proof.
  assert (replace_quotes "it's" = replace_quotes ("it" +:+ "'s")) as Heq
    by reflexivity.
  split; [done|].
  apply (DatabaseRestFacts.replace_quotes_inj "it's" ("it" +:+ "'s") Heq).
Defined.

Lemma saveRecords_never_settles_witness :
  let w := fresh [StatementError diskFull] in
  ([roundTrip] <> []
   /\ errorOf (StatementError diskFull) = Some diskFull)
  /\ (saveRecords sqlite "Survey" [roundTrip] Undefined w).1 = Pending.
Proof.
  intros w.
  assert ([roundTrip] <> []) as Hne by done.
  assert (errorOf (StatementError diskFull) = Some diskFull) as He
    by reflexivity.
  split; [done|].
  by rewrite (DatabaseRestFacts.saveRecords_never_settles sqlite "Survey"
                [roundTrip] Undefined w _ _ diskFull Hne eq_refl He).
Defined.

Lemma saveRecords_inserts_witness :
  let w := fresh [Success noRows; StatementError diskFull] in
  [roundTrip] <> []
  /\ (saveRecords sqlite "Survey" [roundTrip] Undefined w).1
     = Rejected diskFull.
Proof.
  intros w.
  assert ([roundTrip] <> []) as Hne by done.
  split; [done|].
  by rewrite (DatabaseRestFacts.saveRecords_inserts sqlite "Survey"
                [roundTrip] Undefined w _ noRows Hne eq_refl).
Defined.

Lemma getRecords_with_filter_witness :
  truthy (Str "where _localId = 1") = true
  /\ getRecords sqlite "Survey" (Str "where _localId = 1")
       (fresh [Success (rows [roundTrip])])
     = (Resolved [roundTrip],
        {| script := [];
           log := ["select * from Survey where _localId = 1"] |}).
Proof.
  assert (truthy (Str "where _localId = 1") = true) as Ht by reflexivity.
  split; [done|].
  by rewrite (DatabaseRestFacts.getRecords_with_filter sqlite "Survey"
                (Str "where _localId = 1")
                (fresh [Success (rows [roundTrip])]) Ht).
Defined.

Lemma updateRecord_twice_witness :
  let h : gmap ref object := {[1%positive := partial]} in
  let first :=
    updateRecord sqlite "Survey" 1%positive "where _localId = 1" h (fresh [])
  in
  let second :=
    updateRecord sqlite "Survey" 1%positive "where _localId = 1" first.1.2
      first.2 in
  (h !! 1%positive = Some partial /\ wf partial)
  /\ second.1.2 = first.1.2.
Proof.
  intros h first second.
  assert (h !! 1%positive = Some partial) as Hh by reflexivity.
  assert (wf partial) as Hwf by evaluated.
  split; [done|].
  apply (DatabaseRestFacts.updateRecord_twice sqlite "Survey" 1%positive
           "where _localId = 1" h (fresh []) partial Hh Hwf).
Defined.

Lemma updateRecord_only_nulls_witness :
  let h : gmap ref object := {[1%positive := onlyNulls]} in
  (h !! 1%positive = Some onlyNulls
   /\ forall k v, (k, v) ∈ onlyNulls -> v = Null)
  /\ log (updateRecord sqlite "Survey" 1%positive "where _localId = 1" h
            (fresh [])).2
     = ["update Survey set  where _localId = 1"].
Proof.
  intros h.
  assert (h !! 1%positive = Some onlyNulls) as Hh by reflexivity.
  assert (forall k v, (k, v) ∈ onlyNulls -> v = Null) as Hnull.
  { intros k v Hin.
    repeat (apply elem_of_cons in Hin as [Hin|Hin]; [by simplify_eq|]).
    by apply elem_of_nil in Hin. }
  split; [done|].
  destruct (DatabaseRestFacts.updateRecord_only_nulls sqlite "Survey"
              1%positive "where _localId = 1" h (fresh []) onlyNulls Hh Hnull)
    as [_ Hrun].
  exact (f_equal (fun r => log r.2) Hrun).
Defined.

Lemma updateFieldValues_statement_witness :
  (forall fv, fv ∈ answers ->
              truthy (value fv) = false \/ typeof (value fv) = TString)
  /\ log (updateFieldValues sqlite "Survey" answers "where _localId = 1"
            (fresh [])).2
     = ["update Survey set Name__c = 'O''Hara', Notes__c = '' where _localId = 1"].
Proof.
  assert (forall fv, fv ∈ answers ->
            truthy (value fv) = false \/ typeof (value fv) = TString) as Htext.
  { intros fv Hin.
    repeat (apply elem_of_cons in Hin as [->|Hin]; [by auto|]).
    by apply elem_of_nil in Hin. }
  split; [done|].
  by rewrite (DatabaseRestFacts.updateFieldValues_statement sqlite "Survey"
                answers "where _localId = 1" (fresh []) Htext).
Defined.

Lemma updateFieldValues_not_text_witness :
  (truthy (value age) = true /\ typeof (value age) <> TString)
  /\ exists message,
      updateFieldValues sqlite "Survey" (answers ++ [age])
        "where _localId = 1" (fresh [])
      = (Rejected (TypeError message), fresh []).
Proof.
  assert (age ∈ (answers ++ [age])%list) as Hin
    by (apply elem_of_app; right; left).
  assert (truthy (value age) = true) as Ht by reflexivity.
  assert (typeof (value age) <> TString) as Hty by done.
  split; [done|].
  apply (DatabaseRestFacts.updateFieldValues_not_text sqlite "Survey"
           (answers ++ [age]) "where _localId = 1" (fresh []) age Hin Ht Hty).
Defined.

Lemma clearDatabase_stops_witness :
  let w := fresh [Success noRows; StatementError diskFull] in
  clearDatabase sqlite ["RecordType"; "PageLayoutItem"; "Survey"] w
  = (Rejected diskFull,
     {| script := [];
        log := ["DROP TABLE IF EXISTS RecordType;";
                "DROP TABLE IF EXISTS PageLayoutItem;"] |}).
Proof.
  intros w.
  apply (DatabaseRestFacts.clearDatabase_stops sqlite ["RecordType"]
           "PageLayoutItem" ["Survey"] w _ _ (StatementError diskFull)
           diskFull eq_refl eq_refl eq_refl).
Defined.

End RestExamples.

(** ** The layout, the refresh, the editor and the button, on the test
    doubles *)

Module ScreenExamples.
Import JS Promise Describe Mock Samples.

Abbreviation status := MockUI.status.

Lemma assemble_every_item_once_witness :
  NoDup ((fun s => to_string (get s "id")) <$> sectionRows)
  /\ exists layout,
      assemble sectionRows itemRows = inr layout
      /\ concat (data <$> sections layout)
         ≡ₚ [ {| name := Str "Name"; label := Str "Full name";
                 type := Str "string"; required := true |};
              {| name := Str "Crop__c"; label := Str "Crop";
                 type := Str "picklist"; required := false |} ].
Proof.
  assert (NoDup ((fun s => to_string (get s "id")) <$> sectionRows)) as Hnd
    by evaluated.
  assert (forall item, item ∈ itemRows ->
            to_string (get item "sectionId")
            ∈ (fun s => to_string (get s "id")) <$> sectionRows) as Hin.
  { intros item Hitem.
    repeat (apply elem_of_cons in Hitem as [->|Hitem]; [evaluated|]).
    by apply elem_of_nil in Hitem. }
  assert (forall s, s ∈ sectionRows ->
            inherited (to_string (get s "id")) = false) as Hids.
  { intros s Hs.
    repeat (apply elem_of_cons in Hs as [->|Hs]; [reflexivity|]).
    by apply elem_of_nil in Hs. }
  split; [done|].
  apply (DescribeRestFacts.assemble_every_item_once sectionRows itemRows
           Hnd Hin Hids).
Defined.

Lemma buildLayoutDetail_sections_fail_witness :
  let w := fresh [Database.StatementError diskFull] in
  DatabaseRest.errorOf (Database.StatementError diskFull) = Some diskFull
  /\ buildLayoutDetail sqlite "PageLayoutSection" "PageLayoutItem" "L1" w
     = (Rejected diskFull,
        {| script := [];
           log := ["select * from PageLayoutSection where layoutId='L1'"] |}).
Proof.
  intros w. split; [reflexivity|].
  apply (DescribeRestFacts.buildLayoutDetail_sections_fail sqlite
           "PageLayoutSection" "PageLayoutItem" "L1" w _
           (Database.StatementError diskFull) diskFull eq_refl eq_refl).
Defined.

Lemma buildLayoutDetail_inherited_id_witness :
  let s : object := [("id", Str "constructor"); ("sectionLabel", Str "A")] in
  let w := fresh [Database.Success (rows [s]); Database.Success (rows [])] in
  inherited (to_string (get s "id")) = true
  /\ exists message,
      (buildLayoutDetail sqlite "PageLayoutSection" "PageLayoutItem" "L1"
         w).1
      = Rejected (TypeError message).
Proof.
  intros s w.
  assert (inherited (to_string (get s "id")) = true) as Hid by reflexivity.
  assert (s ∈ Database.rows_array (rows [s])) as Hs by left.
  split; [done|].
  destruct (DescribeRestFacts.buildLayoutDetail_inherited_id sqlite
              "PageLayoutSection" "PageLayoutItem" "L1" w _ _ (rows [s])
              (rows []) s eq_refl eq_refl Hs Hid)
    as (message & Hrun).
  exists message. exact (f_equal fst Hrun).
Defined.

Lemma buildLayoutDetail_items_fail_witness :
  let w := fresh [Database.Success (rows sectionRows);
                  Database.Thrown diskFull] in
  DatabaseRest.errorOf (Database.Thrown diskFull) = Some diskFull
  /\ buildLayoutDetail sqlite "PageLayoutSection" "PageLayoutItem" "L1" w
     = (Rejected diskFull,
        {| script := [];
           log :=
             ["select * from PageLayoutSection where layoutId='L1'";
              "select * from PageLayoutItem where sectionId in ('s1','s2')"]
        |}).
Proof.
  intros w. split; [reflexivity|].
  apply (DescribeRestFacts.buildLayoutDetail_items_fail sqlite
           "PageLayoutSection" "PageLayoutItem" "L1" w _ _ (rows sectionRows)
           (Database.Thrown diskFull) diskFull eq_refl eq_refl eq_refl).
Defined.

Lemma retrieveAllMetadata_no_rollback_witness :
  let e := Obj [("error", Str "no_editable_fields")] in
  Describe.retrieveAllMetadata sqlite "RecordType" "PageLayoutSection"
    "PageLayoutItem" "PicklistValue" "Localization" "Survey__c" "@FieldType"
    (fun r : object => get r "recordTypeId")
    (fun l : object => to_string (get l "id"))
    (throw e) (failing "invalid_record_type")
    (fun _ => ret tt) (fun l => ret (picklists l))
    (ret tt) (fun _ _ w => w) (fresh [])
  = (Rejected (Error noEditableFieldsMessage),
     {| script := []; log := ["DROP TABLE IF EXISTS RecordType;"] |}).
Proof.
  intros e.
  apply (DescribeRestFacts.retrieveAllMetadata_no_rollback sqlite
           "RecordType" "PageLayoutSection" "PageLayoutItem" "PicklistValue"
           "Localization" "Survey__c" "@FieldType"
           (fun r : object => get r "recordTypeId")
           (fun l : object => to_string (get l "id"))
           (throw e) (failing "invalid_record_type")
           (fun _ => ret tt) (fun l => ret (picklists l))
           (ret tt) (fun _ _ w => w)
           (fresh []) _ _ noRows e eq_refl eq_refl).
Defined.

Lemma retrieveAllMetadata_storage_error_witness :
  let w := fresh [Database.StatementError diskFull] in
  DatabaseRest.errorOf (Database.StatementError diskFull) = Some diskFull
  /\ Mock.retrieveAllMetadata (failing "invalid_record_type") w
     = (Rejected (Error unexpectedErrorMessage),
        {| script := []; log := ["DROP TABLE IF EXISTS RecordType;"] |}).
Proof.
  intros w. split; [reflexivity|].
  apply (DescribeRestFacts.retrieveAllMetadata_storage_error sqlite
           "RecordType" "PageLayoutSection" "PageLayoutItem" "PicklistValue"
           "Localization" "Survey__c" "@FieldType"
           (fun r : object => get r "recordTypeId")
           (fun l : object => to_string (get l "id"))
           (ret [recordType]) (failing "invalid_record_type")
           (fun _ => ret tt) (fun l => ret (picklists l))
           (ret tt) (fun _ _ w => w)
           w _ (Database.StatementError diskFull) diskFull eq_refl eq_refl).
Defined.

Lemma retrieveAllMetadata_nullish_witness :
  let rejects : string -> list value -> task world (list object) :=
    fun _ _ => throw (Prim Undefined) in
  nullish (Prim Undefined) = true
  /\ exists message,
      (Mock.retrieveAllMetadata rejects (fresh [])).1
      = Rejected (TypeError message).
Proof.
  intros rejects. split; [reflexivity|].
  destruct (DescribeRestFacts.retrieveAllMetadata_nullish sqlite
              "RecordType" "PageLayoutSection" "PageLayoutItem"
              "PicklistValue" "Localization" "Survey__c" "@FieldType"
              (fun r : object => get r "recordTypeId")
              (fun l : object => to_string (get l "id"))
              (ret [recordType]) rejects
              (fun _ => ret tt) (fun l => ret (picklists l))
              (ret tt) (fun _ _ w => w)
              (fresh []) _ (Prim Undefined) eq_refl eq_refl)
    as (message & Hrun & _).
  exists message. exact (f_equal fst Hrun).
Defined.

Lemma surveyReducer_update_keys_witness :
  wf roundTrip
  /\ exists state',
      SurveyEditor.surveyReducer {| SurveyEditor.survey := roundTrip |}
        (SurveyEditor.UPDATE "count" (Num 3))
      = inl state'
      /\ keys (SurveyEditor.survey state') = ["name"; "active"; "count"].
Proof.
  assert (wf roundTrip) as Hwf by evaluated.
  split; [done|].
  destruct (SurveyEditorFacts.surveyReducer_update_keys
              {| SurveyEditor.survey := roundTrip |} "count" (Num 3) Hwf)
    as (state' & Hrun & _ & Hkeys & _).
  exists state'. split; [exact Hrun|]. apply Hkeys. evaluated.
Defined.

(** A new field whose name is an array index is listed before the other
    fields. *)
Example surveyReducer_update_index :
  SurveyEditor.surveyReducer {| SurveyEditor.survey := [("name", Str "A")] |}
    (SurveyEditor.UPDATE "1" (Str "x"))
  = inl {| SurveyEditor.survey := [("1", Str "x"); ("name", Str "A")] |}
  /\ SurveyEditor.surveyReducer
       {| SurveyEditor.survey := [("1", Str "x"); ("name", Str "A")] |}
       (SurveyEditor.UPDATE "0" (Str "y"))
     = inl {| SurveyEditor.survey :=
                [("0", Str "y"); ("1", Str "x"); ("name", Str "A")] |}
  /\ SurveyEditor.surveyReducer
       {| SurveyEditor.survey := [("1", Str "x"); ("name", Str "A")] |}
       (SurveyEditor.UPDATE "01" (Str "z"))
     = inl {| SurveyEditor.survey :=
                [("1", Str "x"); ("name", Str "A"); ("01", Str "z")] |}.
Proof. by vm_compute. Qed.

Lemma onPress_inactive_witness :
  SyncButton.isSyncActive status (Str "Unsynced") MockUI.surveys false = false
  /\ SyncButton.onPress status (Str "Unsynced") MockUI.setShowsSpinner
       MockUI.refreshSurveys (MockUI.syncLocalSurveys false) MockUI.surveys
       false SyncButton.OK MockUI.idle
     = (Resolved tt, MockUI.idle).
Proof.
  assert (SyncButton.isSyncActive status (Str "Unsynced") MockUI.surveys false
          = false) as Hinactive by reflexivity.
  split; [done|].
  apply (SyncButtonFacts.onPress_inactive status (Str "Unsynced")
           MockUI.setShowsSpinner MockUI.refreshSurveys
           (MockUI.syncLocalSurveys false) MockUI.surveys false SyncButton.OK
           MockUI.idle (or_introl Hinactive)).
Defined.

Lemma onPressOK_sync_fails_witness :
  (SyncButton.onPressOK status (Str "Unsynced") MockUI.setShowsSpinner
     MockUI.refreshSurveys (MockUI.syncLocalSurveys true) MockUI.surveys
     MockUI.idle).2
  = {| MockUI.spinner := true; MockUI.calls := ["syncLocalSurveys"] |}.
Proof.
  by rewrite (SyncButtonFacts.onPressOK_sync_fails status (Str "Unsynced")
                MockUI.setShowsSpinner MockUI.refreshSurveys
                (MockUI.syncLocalSurveys true) MockUI.surveys MockUI.idle
                _ _ eq_refl).
Defined.

Lemma onPressOK_resolves_witness :
  SyncButton.onPressOK status (Str "Unsynced") MockUI.setShowsSpinner
    MockUI.refreshSurveys (MockUI.syncLocalSurveys false) MockUI.surveys
    MockUI.idle
  = (Resolved tt,
     {| MockUI.spinner := false;
        MockUI.calls := ["syncLocalSurveys"; "refreshSurveys"] |}).
Proof.
  apply (SyncButtonFacts.onPressOK_resolves status (Str "Unsynced")
           MockUI.setShowsSpinner MockUI.refreshSurveys
           (MockUI.syncLocalSurveys false) MockUI.surveys MockUI.idle
           _ _ tt eq_refl eq_refl).
Defined.

End ScreenExamples.
